(** * Browser CRUD clients for /api/users and /api/books

    A shallow embedding of the two front-end scripts ([app.js], the users
    client, and its sibling for books) together with the fragment of
    JavaScript they rely on: strings as sequences of UTF-16 code units,
    [trim], [parseInt], [encodeURIComponent], property reads and string
    conversion of parsed JSON, exceptions with [try]/[catch], and the
    browser interactions [fetch], [alert], [confirm] and [console]. *)

From Stdlib Require Import List ZArith NArith Lia Bool String Ascii.
Import ListNotations.

Set Implicit Arguments.

(* ================================================================== *)
(** * JavaScript strings *)

(** A JavaScript string is a finite sequence of 16-bit code units. *)
Definition code_unit := N.
Definition jsstring := list code_unit.

(** String literals of the scripts (all of them ASCII). *)
Definition js (s : string) : jsstring :=
  map N_of_ascii (list_ascii_of_string s).

Definition jsstring_eqb (a b : jsstring) : bool :=
  if list_eq_dec N.eq_dec a b then true else false.

(** A string is truthy exactly when it is not empty. *)
Definition nonempty (s : jsstring) : bool :=
  match s with [] => false | _ :: _ => true end.

(** ** String.prototype.trim *)

Definition isWhiteSpace (c : code_unit) : bool :=
  ((c =? 0x09) || (c =? 0x0B) || (c =? 0x0C) || (c =? 0x20) || (c =? 0xA0)
   || (c =? 0x1680) || ((0x2000 <=? c) && (c <=? 0x200A))
   || (c =? 0x202F) || (c =? 0x205F) || (c =? 0x3000) || (c =? 0xFEFF))%N.

Definition isLineTerminator (c : code_unit) : bool :=
  ((c =? 0x0A) || (c =? 0x0D) || (c =? 0x2028) || (c =? 0x2029))%N.

Definition isStrWhiteSpaceChar (c : code_unit) : bool :=
  isWhiteSpace c || isLineTerminator c.

Fixpoint trimStart (s : jsstring) : jsstring :=
  match s with
  | [] => []
  | c :: rest => if isStrWhiteSpaceChar c then trimStart rest else s
  end.

Definition trimEnd (s : jsstring) : jsstring := rev (trimStart (rev s)).

Definition trim (s : jsstring) : jsstring := trimEnd (trimStart s).

(** ** Numbers

    The scripts meet numbers in two places: the result of [parseInt] and
    the numbers of a parsed JSON body.  Both are kept as mathematical
    integers ([NaN] apart); the rounding to a double that JavaScript
    applies beyond the safe integer range is left to the engine. *)
Inductive Number :=
| NaN
| Int (z : Z).

(** [!id]: a number is falsy when it is [NaN] or zero. *)
Definition Number_truthy (n : Number) : bool :=
  match n with
  | NaN => false
  | Int z => negb (z =? 0)%Z
  end.

Definition digit_value (R : N) (c : code_unit) : option N :=
  let v :=
    if ((48 <=? c) && (c <=? 57))%N then Some (c - 48)%N
    else if ((97 <=? c) && (c <=? 122))%N then Some (c - 97 + 10)%N
    else if ((65 <=? c) && (c <=? 90))%N then Some (c - 65 + 10)%N
    else None in
  match v with
  | Some d => if (d <? R)%N then Some d else None
  | None => None
  end.

(** The longest prefix of radix-[R] digits, as digit values. *)
Fixpoint digits_prefix (R : N) (s : jsstring) : list N :=
  match s with
  | [] => []
  | c :: rest =>
      match digit_value R c with
      | Some d => d :: digits_prefix R rest
      | None => []
      end
  end.

Definition digits_value (R : N) (ds : list N) : N :=
  fold_left (fun acc d => (acc * R + d)%N) ds 0%N.

(** [parseInt(string)] with no radix argument. *)
Definition parseInt (input : jsstring) : Number :=
  let str := trimStart input in
  let sign := match str with 45%N :: _ => (-1)%Z | _ => 1%Z end in
  let str := match str with
             | 43%N :: rest => rest
             | 45%N :: rest => rest
             | _ => str
             end in
  let '(R, str) := match str with
                   | 48%N :: 120%N :: rest => (16%N, rest)
                   | 48%N :: 88%N :: rest => (16%N, rest)
                   | _ => (10%N, str)
                   end in
  match digits_prefix R str with
  | [] => NaN
  | ds => Int (sign * Z.of_N (digits_value R ds))
  end.

(** Decimal digits of a natural number, most significant first. *)
Fixpoint decimal_pos (fuel : nat) (n : N) (acc : jsstring) : jsstring :=
  match fuel with
  | O => acc
  | S fuel' =>
      let acc' := (48 + n mod 10)%N :: acc in
      if (n <? 10)%N then acc' else decimal_pos fuel' (n / 10)%N acc'
  end.

Definition decimal (n : N) : jsstring :=
  decimal_pos (S (N.to_nat (N.log2 n))) n [].

Definition MAX_SAFE : Z := 2 ^ 53.

(** What the engine decides: how a number beyond the safe integer range
    prints once rounded to a double, and the message texts of the errors
    it throws by itself. *)
Inductive Fault :=
| NullProperty (property : jsstring)
| NotAFunction (property : jsstring)
| NotPrimitive
| MalformedURI.

Record Engine := {
  double_toString : Z -> jsstring;
  fault_message : Fault -> jsstring
}.

(** Number::toString, radix 10. *)
Definition Number_toString (eng : Engine) (n : Number) : jsstring :=
  match n with
  | NaN => js "NaN"
  | Int z =>
      if (Z.abs z <=? MAX_SAFE)%Z then
        (if (z <? 0)%Z then js "-" else []) ++ decimal (Z.to_N (Z.abs z))
      else double_toString eng z
  end.

(** ** encodeURIComponent *)

Definition isUnreserved (c : code_unit) : bool :=
  (((48 <=? c) && (c <=? 57)) || ((65 <=? c) && (c <=? 90))
   || ((97 <=? c) && (c <=? 122))
   || (c =? 45) || (c =? 95) || (c =? 46) || (c =? 33) || (c =? 126)
   || (c =? 42) || (c =? 39) || (c =? 40) || (c =? 41))%N.

Definition isLeadingSurrogate (c : code_unit) : bool :=
  ((0xD800 <=? c) && (c <=? 0xDBFF))%N.

Definition isTrailingSurrogate (c : code_unit) : bool :=
  ((0xDC00 <=? c) && (c <=? 0xDFFF))%N.

Definition hex_digit (d : N) : code_unit :=
  (if d <? 10 then 48 + d else 65 + (d - 10))%N.

Definition percent (octet : N) : jsstring :=
  [37%N; hex_digit (octet / 16); hex_digit (octet mod 16)].

Definition utf8 (cp : N) : list N :=
  (if cp <? 0x80 then [cp]
   else if cp <? 0x800 then [0xC0 + cp / 64; 0x80 + cp mod 64]
   else if cp <? 0x10000 then
     [0xE0 + cp / 4096; 0x80 + (cp / 64) mod 64; 0x80 + cp mod 64]
   else
     [0xF0 + cp / 262144; 0x80 + (cp / 4096) mod 64;
      0x80 + (cp / 64) mod 64; 0x80 + cp mod 64])%N.

Definition percent_encode (cp : N) : jsstring :=
  flat_map percent (utf8 cp).

(** [None] stands for the URIError thrown at an unpaired surrogate. *)
Fixpoint encodeURIComponent (s : jsstring) : option jsstring :=
  match s with
  | [] => Some []
  | c :: rest =>
      if isUnreserved c then option_map (cons c) (encodeURIComponent rest)
      else if isTrailingSurrogate c then None
      else if isLeadingSurrogate c then
        match rest with
        | [] => None
        | c2 :: rest2 =>
            if isTrailingSurrogate c2 then
              let cp := ((c - 0xD800) * 0x400 + (c2 - 0xDC00) + 0x10000)%N in
              option_map (app (percent_encode cp)) (encodeURIComponent rest2)
            else None
        end
      else option_map (app (percent_encode c)) (encodeURIComponent rest)
  end.

(** A string in which every surrogate is half of a pair. *)
Fixpoint isWellFormed (s : jsstring) : bool :=
  match s with
  | [] => true
  | c :: rest =>
      if isTrailingSurrogate c then false
      else if isLeadingSurrogate c then
        match rest with
        | [] => false
        | c2 :: rest2 => isTrailingSurrogate c2 && isWellFormed rest2
        end
      else isWellFormed rest
  end.

(* ================================================================== *)
(** * Parsed JSON and the values read from it *)

(** The value [response.json()] resolves to.  An object is the list of
    its own properties; a number is an integer, as the identifiers of
    the data model are (numbers with a fraction or an exponent are not
    modelled). *)
#[local] Set Warnings "-register-all".
Inductive JSON :=
| JNull
| JBool (b : bool)
| JNum (z : Z)
| JStr (s : jsstring)
| JArr (elements : list JSON)
| JObj (members : list (jsstring * JSON)).

#[local] Set Warnings "register-all".

(** The result of a property read: [None] is [undefined]. *)
Definition Value := option JSON.

Fixpoint own_property (key : jsstring) (members : list (jsstring * JSON))
  : Value :=
  match members with
  | [] => None
  | (k, v) :: rest =>
      if jsstring_eqb k key then Some v else own_property key rest
  end.

(** [v.key] for the property names the scripts read ([id], [name], [title],
    [author], [detail]), none of which a built-in prototype defines:
    reading from [null] is a fault, an object answers with its own
    property, every other value with [undefined]. *)
Definition Get (v : JSON) (key : jsstring) : Fault + Value :=
  match v with
  | JNull => inl (NullProperty key)
  | JObj members => inr (own_property key members)
  | _ => inr None
  end.

Definition ToBoolean (v : Value) : bool :=
  match v with
  | None => false
  | Some JNull => false
  | Some (JBool b) => b
  | Some (JNum z) => Number_truthy (Int z)
  | Some (JStr s) => nonempty s
  | Some (JArr _) => true
  | Some (JObj _) => true
  end.

(** [a || b] with [b] a string literal. *)
Definition or_else (a : Value) (b : jsstring) : Value :=
  if ToBoolean a then a else Some (JStr b).

(** ToString of a parsed JSON value; [None] is the TypeError raised when
    an object cannot be converted to a primitive, which for parsed JSON
    happens exactly when the object has an own property [toString] (it
    hides Object.prototype.toString and is not callable).  An array
    prints as its elements joined by commas, [null] elements as nothing. *)
Fixpoint JSON_toString (eng : Engine) (v : JSON) : option jsstring :=
  match v with
  | JNull => Some (js "null")
  | JBool true => Some (js "true")
  | JBool false => Some (js "false")
  | JNum z => Some (Number_toString eng (Int z))
  | JStr s => Some s
  | JArr elements =>
      (fix join (l : list JSON) : option jsstring :=
         match l with
         | [] => Some []
         | x :: rest =>
             match (match x with JNull => Some [] | _ => JSON_toString eng x end),
                   join rest with
             | Some sx, Some sr =>
                 Some (sx ++ (match rest with [] => [] | _ :: _ => js "," end) ++ sr)
             | _, _ => None
             end
         end) elements
  | JObj members =>
      match own_property (js "toString") members with
      | Some _ => None
      | None => Some (js "[object Object]")
      end
  end.

Definition ToString (eng : Engine) (v : Value) : option jsstring :=
  match v with
  | None => Some (js "undefined")
  | Some j => JSON_toString eng j
  end.

(* ================================================================== *)
(** * Errors, requests and the interaction trace *)

Record JSError := {
  error_name : jsstring;
  message : jsstring
}.

(** [new Error(message)] with the message already a string. *)
Definition Error (msg : jsstring) : JSError :=
  {| error_name := js "Error"; message := msg |}.

Definition fault_error (eng : Engine) (f : Fault) : JSError :=
  {| error_name := match f with MalformedURI => js "URIError" | _ => js "TypeError" end;
     message := fault_message eng f |}.

Inductive Method := GET | POST | PUT | DELETE.

(** The argument of [fetch].  [body] holds the value handed to
    [JSON.stringify]; its serialisation to text is not modelled. *)
Record Request := {
  method : Method;
  url : jsstring;
  headers : list (jsstring * jsstring);
  body : option JSON
}.

(** [fetch(url)] with no options. *)
Definition get_request (u : jsstring) : Request :=
  {| method := GET; url := u; headers := []; body := None |}.

(** A response as the scripts see it: its status and what
    [response.json()] settles to (a rejection on malformed JSON). *)
Record Response := {
  status : N;
  json : JSError + JSON
}.

(** [response.ok]: the status is in the range 200-299. *)
Definition ok (r : Response) : bool :=
  ((200 <=? status r) && (status r <=? 299))%N.

Inductive FetchResult :=
| Rejected (e : JSError)
| Responded (r : Response).

Inductive LogArg :=
| LStr (s : jsstring)
| LJson (v : JSON)
| LErr (e : JSError).

Inductive Level := level_log | level_error.

Inductive Event :=
| EFetch (req : Request) (res : FetchResult)
| EAlert (msg : jsstring)
| EConfirm (msg : jsstring) (answer : bool)
| EConsole (level : Level) (args : list LogArg).

(** Everything outside the script: the engine, the server behind [fetch]
    and the person answering [confirm].  Both may answer depending on
    all that has happened on the page so far. *)
Record Env := {
  engine : Engine;
  fetch_answer : list Event -> Request -> FetchResult;
  confirm_answer : list Event -> jsstring -> bool
}.

(* ================================================================== *)
(** * Running a handler

    A handler runs against the environment, the events of the page so
    far and the document; it ends by returning or by throwing, leaves a
    document behind and has emitted some events.  An [await] is a plain
    sequencing point: a handler runs to completion before the next one
    starts (two handlers in flight at once are not modelled). *)

Inductive Outcome (A : Type) :=
| Returned (a : A)
| Threw (e : JSError).
Arguments Threw {A} e.

Record Run (D A : Type) := mkRun {
  outcome : Outcome A;
  document : D;
  emitted : list Event
}.

Definition M (D A : Type) : Type := Env -> list Event -> D -> Run D A.

Section Monad.
Context {D : Type}.

Definition ret {A} (a : A) : M D A :=
  fun _ _ doc => {| outcome := Returned a; document := doc; emitted := [] |}.

Definition throw {A} (e : JSError) : M D A :=
  fun _ _ doc => {| outcome := Threw e; document := doc; emitted := [] |}.

(** The run [r] seen from before the events [evs] that preceded it. *)
Definition after {A} (evs : list Event) (r : Run D A) : Run D A :=
  match r with
  | mkRun o doc evs' => mkRun o doc (evs ++ evs')
  end.

Definition bind {A B} (m : M D A) (k : A -> M D B) : M D B :=
  fun env past doc =>
    match m env past doc with
    | mkRun (Returned a) doc' evs => after evs (k a env (past ++ evs) doc')
    | mkRun (Threw e) doc' evs => mkRun (Threw e) doc' evs
    end.

(** [try { body } catch (error) { handler }] *)
Definition try_catch (body : M D unit) (handler : JSError -> M D unit)
  : M D unit :=
  fun env past doc =>
    match body env past doc with
    | mkRun (Returned a) doc' evs => mkRun (Returned a) doc' evs
    | mkRun (Threw e) doc' evs => after evs (handler e env (past ++ evs) doc')
    end.

Definition emit (e : Event) : M D unit :=
  fun _ _ doc => {| outcome := Returned tt; document := doc; emitted := [e] |}.

Definition read {A} (f : D -> A) : M D A :=
  fun _ _ doc => {| outcome := Returned (f doc); document := doc; emitted := [] |}.

Definition write (f : D -> D) : M D unit :=
  fun _ _ doc => {| outcome := Returned tt; document := f doc; emitted := [] |}.

Definition fault {A} (f : Fault) : M D A :=
  fun env past doc => throw (fault_error (engine env) f) env past doc.

Definition when (c : bool) (m : M D unit) : M D unit :=
  if c then m else ret tt.

(** ** The browser *)

Definition fetch (req : Request) : M D Response :=
  fun env past doc =>
    let res := fetch_answer env past req in
    {| outcome := match res with
                  | Rejected e => Threw e
                  | Responded r => Returned r
                  end;
       document := doc;
       emitted := [EFetch req res] |}.

Definition response_json (r : Response) : M D JSON :=
  match json r with
  | inl e => throw e
  | inr v => ret v
  end.

Definition alert (msg : jsstring) : M D unit := emit (EAlert msg).

Definition confirm (msg : jsstring) : M D bool :=
  fun env past doc =>
    let answer := confirm_answer env past msg in
    {| outcome := Returned answer; document := doc;
       emitted := [EConfirm msg answer] |}.

Definition console_log (args : list LogArg) : M D unit :=
  emit (EConsole level_log args).

Definition console_error (args : list LogArg) : M D unit :=
  emit (EConsole level_error args).

(** ** Values inside a handler *)

Definition get (v : JSON) (key : string) : M D Value :=
  match Get v (js key) with
  | inl f => fault f
  | inr x => ret x
  end.

(** A substitution [${v}] of a template literal. *)
Definition to_string (v : Value) : M D jsstring :=
  fun env past doc =>
    match ToString (engine env) v with
    | Some s => ret s env past doc
    | None => fault NotPrimitive env past doc
    end.

Definition number_to_string (n : Number) : M D jsstring :=
  fun env past doc => ret (Number_toString (engine env) n) env past doc.

(** [new Error(v)] *)
Definition new_Error (v : Value) : M D JSError :=
  match v with
  | None => ret (Error [])
  | Some _ => bind (to_string v) (fun s => ret (Error s))
  end.

(** [v.forEach(f)]: only an array has the method; the first call of
    [f] that throws ends the loop. *)
Fixpoint each (l : list JSON) (f : JSON -> M D unit) : M D unit :=
  match l with
  | [] => ret tt
  | x :: rest => bind (f x) (fun _ => each rest f)
  end.

Definition forEach (v : JSON) (f : JSON -> M D unit) : M D unit :=
  match v with
  | JArr elements => each elements f
  | JNull => fault (NullProperty (js "forEach"))
  | _ => fault (NotAFunction (js "forEach"))
  end.

(** [encodeURIComponent] inside a handler. *)
Definition encode_uri_component (s : jsstring) : M D jsstring :=
  match encodeURIComponent s with
  | Some e => ret e
  | None => fault MalformedURI
  end.
End Monad.

Declare Scope js_scope.
Delimit Scope js_scope with js.
Notation "x <- m ;; k" := (bind m (fun x => k))
  (at level 61, m at next level, right associativity) : js_scope.
Notation "m ;; k" := (bind m (fun _ => k))
  (at level 61, right associativity) : js_scope.

(** A table row [<tr>], identified by the markup assigned to its
    [innerHTML]. *)
Record TR := { innerHTML : jsstring }.

(* ================================================================== *)
(** * Observations on a run *)

(** The requests among some events, in the order they were issued. *)
Fixpoint requests (evs : list Event) : list Request :=
  match evs with
  | [] => []
  | EFetch req _ :: rest => req :: requests rest
  | _ :: rest => requests rest
  end.

(** A request succeeds when it is answered with a 2xx status and, where
    the handler reads the body, a body that parses. *)
Definition accepted (reads_body : bool) (res : FetchResult) : bool :=
  match res with
  | Rejected _ => false
  | Responded r =>
      ok r && (if reads_body
               then match json r with inr _ => true | inl _ => false end
               else true)
  end.

(** The three ways a request for a list fails: the network fails, the
    status is not 2xx, the body does not parse. *)
Definition load_fails (res : FetchResult) : bool :=
  match res with
  | Rejected _ => true
  | Responded r =>
      if negb (ok r) then true
      else match json r with inl _ => true | inr _ => false end
  end.

(** Some request for a list was answered with a 2xx status and a body
    that parsed. *)
Definition list_received (is_listing : Request -> Prop) (evs : list Event)
  : Prop :=
  exists req r v,
    In (EFetch req (Responded r)) evs /\ is_listing req /\
    ok r = true /\ json r = inr v.

(** The handlers that change the collection. *)
Inductive Mutation := Create | Update | Delete.

(** A run contains exactly one reload: after the event [first] and some
    events [before] without a request comes one whole run of [load],
    started from the document [doc'], and what follows holds no request
    and leaves the document as the reload left it. *)
Definition reloads_once {D} (load : M D unit) (env : Env) (past : list Event)
  (doc' : D) (first : list Event) (run : Run D unit) : Prop :=
  exists before afterwards,
    let reload := load env (past ++ first ++ before) doc' in
    emitted run = first ++ before ++ emitted reload ++ afterwards /\
    requests before = [] /\ requests afterwards = [] /\
    document run = document reload.

(** The double quote, for the template literals that contain one. *)
Definition dquote : jsstring := [34%N].

Local Open Scope js_scope.

(* ================================================================== *)
(** * The users client (app.js) *)

Module Users.

(** The elements the script looks up by id.  The page's markup is not
    part of the scripts; it is taken to define exactly these elements:
    the table body with its rows and the text inputs with their
    values. *)
Record Document := {
  userTableBody : list TR;
  createName : jsstring;
  updateId : jsstring;
  updateName : jsstring;
  deleteId : jsstring
}.

Definition set_userTableBody (rows : list TR) (d : Document) : Document :=
  {| userTableBody := rows; createName := createName d;
     updateId := updateId d; updateName := updateName d;
     deleteId := deleteId d |}.

Definition set_createName (v : jsstring) (d : Document) : Document :=
  {| userTableBody := userTableBody d; createName := v;
     updateId := updateId d; updateName := updateName d;
     deleteId := deleteId d |}.

Definition set_updateId (v : jsstring) (d : Document) : Document :=
  {| userTableBody := userTableBody d; createName := createName d;
     updateId := v; updateName := updateName d;
     deleteId := deleteId d |}.

Definition set_updateName (v : jsstring) (d : Document) : Document :=
  {| userTableBody := userTableBody d; createName := createName d;
     updateId := updateId d; updateName := v;
     deleteId := deleteId d |}.

Definition set_deleteId (v : jsstring) (d : Document) : Document :=
  {| userTableBody := userTableBody d; createName := createName d;
     updateId := updateId d; updateName := updateName d;
     deleteId := v |}.

Definition appendChild (row : TR) (d : Document) : Document :=
  set_userTableBody (userTableBody d ++ [row]) d.

Definition API_URL : jsstring := js "/api/users".

Definition displayUsers (users : JSON) : M Document unit :=
  write (set_userTableBody []) ;;
  forEach users (fun user =>
    id <- get user "id" ;;
    id <- to_string id ;;
    name <- get user "name" ;;
    name <- to_string name ;;
    let row := {| innerHTML :=
      js "
            <td>" ++ id ++ js "</td>
            <td>" ++ name ++ js "</td>
        " |} in
    write (appendChild row)).

Definition loadUsers : M Document unit :=
  try_catch
    (response <- fetch (get_request API_URL) ;;
     when (negb (ok response))
       (throw (Error (js "Failed to fetch users"))) ;;
     users <- response_json response ;;
     displayUsers users)
    (fun error =>
       console_error [LStr (js "Error loading users:"); LErr error] ;;
       alert (js "Failed to load users")).

Definition json_headers : list (jsstring * jsstring) :=
  [(js "Content-Type", js "application/json")].

Definition createUser : M Document unit :=
  name <- read createName ;;
  let name := trim name in
  if negb (nonempty name) then
    alert (js "Please enter a user name")
  else
    try_catch
      (response <- fetch {| method := POST; url := API_URL;
                            headers := json_headers;
                            body := Some (JObj [(js "name", JStr name)]) |} ;;
       when (negb (ok response))
         (error <- response_json response ;;
          detail <- get error "detail" ;;
          e <- new_Error (or_else detail (js "Failed to create user")) ;;
          throw e) ;;
       newUser <- response_json response ;;
       console_log [LStr (js "Created user:"); LJson newUser] ;;
       write (set_createName []) ;;
       loadUsers ;;
       newName <- get newUser "name" ;;
       newName <- to_string newName ;;
       alert (js "User " ++ dquote ++ newName ++ dquote
                ++ js " created successfully!"))
      (fun error =>
         console_error [LStr (js "Error creating user:"); LErr error] ;;
         alert (js "Failed to create user: " ++ message error)).

Definition updateUser : M Document unit :=
  idText <- read updateId ;;
  name <- read updateName ;;
  let id := parseInt idText in
  let name := trim name in
  if negb (Number_truthy id) || negb (nonempty name) then
    alert (js "Please enter both User ID and new name")
  else
    try_catch
      (idString <- number_to_string id ;;
       response <- fetch {| method := PUT;
                            url := API_URL ++ js "/" ++ idString;
                            headers := json_headers;
                            body := Some (JObj [(js "name", JStr name)]) |} ;;
       when (negb (ok response))
         (error <- response_json response ;;
          detail <- get error "detail" ;;
          e <- new_Error (or_else detail (js "Failed to update user")) ;;
          throw e) ;;
       updatedUser <- response_json response ;;
       console_log [LStr (js "Updated user:"); LJson updatedUser] ;;
       write (set_updateId []) ;;
       write (set_updateName []) ;;
       loadUsers ;;
       idString <- number_to_string id ;;
       alert (js "User ID " ++ idString ++ js " updated successfully!"))
      (fun error =>
         console_error [LStr (js "Error updating user:"); LErr error] ;;
         alert (js "Failed to update user: " ++ message error)).

Definition deleteUser : M Document unit :=
  idText <- read deleteId ;;
  let id := parseInt idText in
  if negb (Number_truthy id) then
    alert (js "Please enter a User ID")
  else
    idString <- number_to_string id ;;
    confirmed <- confirm (js "Are you sure you want to delete user ID "
                            ++ idString ++ js "?") ;;
    if negb confirmed then ret tt
    else
      try_catch
        (idString <- number_to_string id ;;
         response <- fetch {| method := DELETE;
                              url := API_URL ++ js "/" ++ idString;
                              headers := []; body := None |} ;;
         when (negb (ok response))
           (error <- response_json response ;;
            detail <- get error "detail" ;;
            e <- new_Error (or_else detail (js "Failed to delete user")) ;;
            throw e) ;;
         idString <- number_to_string id ;;
         console_log [LStr (js "Deleted user ID " ++ idString)] ;;
         write (set_deleteId []) ;;
         loadUsers ;;
         idString <- number_to_string id ;;
         alert (js "User ID " ++ idString ++ js " deleted successfully!"))
        (fun error =>
           console_error [LStr (js "Error deleting user:"); LErr error] ;;
           alert (js "Failed to delete user: " ++ message error)).

(** ** Vocabulary for the statements about the handlers *)

Definition mutate (m : Mutation) : M Document unit :=
  match m with
  | Create => createUser
  | Update => updateUser
  | Delete => deleteUser
  end.

Inductive Handler := LoadUsers | Mutate (m : Mutation).

Definition handle (h : Handler) : M Document unit :=
  match h with
  | LoadUsers => loadUsers
  | Mutate m => mutate m
  end.

(** The client-side validation of each handler. *)
Definition valid (m : Mutation) (d : Document) : bool :=
  match m with
  | Create => nonempty (trim (createName d))
  | Update => Number_truthy (parseInt (updateId d))
              && nonempty (trim (updateName d))
  | Delete => Number_truthy (parseInt (deleteId d))
  end.

(** What a handler alerts when its validation fails. *)
Definition complaint (m : Mutation) : jsstring :=
  match m with
  | Create => js "Please enter a user name"
  | Update => js "Please enter both User ID and new name"
  | Delete => js "Please enter a User ID"
  end.

(** The request each handler sends once its validation passes. *)
Definition request (eng : Engine) (m : Mutation) (d : Document) : Request :=
  match m with
  | Create =>
      {| method := POST; url := API_URL; headers := json_headers;
         body := Some (JObj [(js "name", JStr (trim (createName d)))]) |}
  | Update =>
      {| method := PUT;
         url := API_URL ++ js "/" ++ Number_toString eng (parseInt (updateId d));
         headers := json_headers;
         body := Some (JObj [(js "name", JStr (trim (updateName d)))]) |}
  | Delete =>
      {| method := DELETE;
         url := API_URL ++ js "/" ++ Number_toString eng (parseInt (deleteId d));
         headers := []; body := None |}
  end.

(** The confirmation a handler asks for, if any. *)
Definition question (eng : Engine) (m : Mutation) (d : Document)
  : option jsstring :=
  match m with
  | Delete => Some (js "Are you sure you want to delete user ID "
                      ++ Number_toString eng (parseInt (deleteId d))
                      ++ js "?")
  | _ => None
  end.

Definition reads_body (m : Mutation) : bool :=
  match m with Delete => false | _ => true end.

(** The inputs a handler resets. *)
Definition cleared (m : Mutation) (d : Document) : Document :=
  match m with
  | Create => set_createName [] d
  | Update => set_updateName [] (set_updateId [] d)
  | Delete => set_deleteId [] d
  end.

Definition same_inputs (a b : Document) : Prop :=
  createName a = createName b /\ updateId a = updateId b /\
  updateName a = updateName b /\ deleteId a = deleteId b.

(** The events before the request, the user's consent, the answer to
    the request, and whether the handler gets through all three. *)
Definition prologue (env : Env) (past : list Event) (m : Mutation)
  (d : Document) : list Event :=
  match question (engine env) m d with
  | Some q => [EConfirm q (confirm_answer env past q)]
  | None => []
  end.

Definition confirmed (env : Env) (past : list Event) (m : Mutation)
  (d : Document) : bool :=
  match question (engine env) m d with
  | Some q => confirm_answer env past q
  | None => true
  end.

Definition answer (env : Env) (past : list Event) (m : Mutation)
  (d : Document) : FetchResult :=
  fetch_answer env (past ++ prologue env past m d) (request (engine env) m d).

Definition succeeds (env : Env) (past : list Event) (m : Mutation)
  (d : Document) : bool :=
  valid m d && confirmed env past m d
  && accepted (reads_body m) (answer env past m d).

Definition is_listing (req : Request) : Prop := req = get_request API_URL.

(** A user record of the data model and the row it is shown as. *)
Definition as_user (j : JSON) : option (Z * jsstring) :=
  match j with
  | JObj members =>
      match own_property (js "id") members,
            own_property (js "name") members with
      | Some (JNum id), Some (JStr name) => Some (id, name)
      | _, _ => None
      end
  | _ => None
  end.

Definition user_row (eng : Engine) (user : Z * jsstring) : TR :=
  {| innerHTML :=
      js "
            <td>" ++ Number_toString eng (Int (fst user)) ++ js "</td>
            <td>" ++ snd user ++ js "</td>
        " |}.

(** ** A session: the user fills inputs and triggers handlers *)

Inductive Input := CreateName | UpdateId | UpdateName | DeleteId.

Definition fill (i : Input) (text : jsstring) : Document -> Document :=
  match i with
  | CreateName => set_createName text
  | UpdateId => set_updateId text
  | UpdateName => set_updateName text
  | DeleteId => set_deleteId text
  end.

Inductive Action :=
| Fill (i : Input) (text : jsstring)
| Invoke (h : Handler).

Record Invocation := {
  invoked : Handler;
  doc_before : Document;
  run : Run Document unit
}.

Fixpoint invocations (actions : list Action) (env : Env)
  (past : list Event) (doc : Document) : list Invocation :=
  match actions with
  | [] => []
  | Fill i text :: rest => invocations rest env past (fill i text doc)
  | Invoke h :: rest =>
      let r := handle h env past doc in
      {| invoked := h; doc_before := doc; run := r |}
        :: invocations rest env (past ++ emitted r) (document r)
  end.

End Users.

(* ================================================================== *)
(** * The books client *)

Module Books.

(** The elements the script looks up by id (see [Users.Document]). *)
Record Document := {
  bookTableBody : list TR;
  createTitle : jsstring;
  createAuthor : jsstring;
  updateId : jsstring;
  updateTitle : jsstring;
  updateAuthor : jsstring;
  searchInput : jsstring
}.

Definition set_bookTableBody (rows : list TR) (d : Document) : Document :=
  {| bookTableBody := rows;
     createTitle := createTitle d; createAuthor := createAuthor d;
     updateId := updateId d; updateTitle := updateTitle d;
     updateAuthor := updateAuthor d; searchInput := searchInput d |}.

Definition set_createTitle (v : jsstring) (d : Document) : Document :=
  {| bookTableBody := bookTableBody d;
     createTitle := v; createAuthor := createAuthor d;
     updateId := updateId d; updateTitle := updateTitle d;
     updateAuthor := updateAuthor d; searchInput := searchInput d |}.

Definition set_createAuthor (v : jsstring) (d : Document) : Document :=
  {| bookTableBody := bookTableBody d;
     createTitle := createTitle d; createAuthor := v;
     updateId := updateId d; updateTitle := updateTitle d;
     updateAuthor := updateAuthor d; searchInput := searchInput d |}.

Definition set_updateId (v : jsstring) (d : Document) : Document :=
  {| bookTableBody := bookTableBody d;
     createTitle := createTitle d; createAuthor := createAuthor d;
     updateId := v; updateTitle := updateTitle d;
     updateAuthor := updateAuthor d; searchInput := searchInput d |}.

Definition set_updateTitle (v : jsstring) (d : Document) : Document :=
  {| bookTableBody := bookTableBody d;
     createTitle := createTitle d; createAuthor := createAuthor d;
     updateId := updateId d; updateTitle := v;
     updateAuthor := updateAuthor d; searchInput := searchInput d |}.

Definition set_updateAuthor (v : jsstring) (d : Document) : Document :=
  {| bookTableBody := bookTableBody d;
     createTitle := createTitle d; createAuthor := createAuthor d;
     updateId := updateId d; updateTitle := updateTitle d;
     updateAuthor := v; searchInput := searchInput d |}.

Definition set_searchInput (v : jsstring) (d : Document) : Document :=
  {| bookTableBody := bookTableBody d;
     createTitle := createTitle d; createAuthor := createAuthor d;
     updateId := updateId d; updateTitle := updateTitle d;
     updateAuthor := updateAuthor d; searchInput := v |}.

Definition appendChild (row : TR) (d : Document) : Document :=
  set_bookTableBody (bookTableBody d ++ [row]) d.

Definition API_URL : jsstring := js "/api/books".

Definition displayBooks (books : JSON) : M Document unit :=
  write (set_bookTableBody []) ;;
  forEach books (fun book =>
    id <- get book "id" ;;
    id <- to_string id ;;
    title <- get book "title" ;;
    title <- to_string title ;;
    author <- get book "author" ;;
    author <- to_string author ;;
    let row := {| innerHTML :=
      js "
            <td>" ++ id ++ js "</td>
            <td>" ++ title ++ js "</td>
            <td>" ++ author ++ js "</td>
        " |} in
    write (appendChild row)).

Definition loadBooks : M Document unit :=
  try_catch
    (response <- fetch (get_request API_URL) ;;
     when (negb (ok response))
       (throw (Error (js "Failed to fetch books"))) ;;
     books <- response_json response ;;
     displayBooks books)
    (fun error =>
       console_error [LStr (js "Error loading books:"); LErr error] ;;
       alert (js "Failed to load books")).

Definition json_headers : list (jsstring * jsstring) :=
  [(js "Content-Type", js "application/json")].

Definition createBook : M Document unit :=
  title <- read createTitle ;;
  author <- read createAuthor ;;
  let title := trim title in
  let author := trim author in
  if negb (nonempty title) || negb (nonempty author) then
    alert (js "Please enter both a book title and an author name")
  else
    try_catch
      (response <- fetch {| method := POST; url := API_URL;
                            headers := json_headers;
                            body := Some (JObj [(js "title", JStr title);
                                                (js "author", JStr author)]) |} ;;
       when (negb (ok response))
         (err <- response_json response ;;
          detail <- get err "detail" ;;
          e <- new_Error (or_else detail (js "Failed to create book")) ;;
          throw e) ;;
       newBook <- response_json response ;;
       console_log [LStr (js "Created book:"); LJson newBook] ;;
       write (set_createTitle []) ;;
       write (set_createAuthor []) ;;
       loadBooks ;;
       newTitle <- get newBook "title" ;;
       newTitle <- to_string newTitle ;;
       newAuthor <- get newBook "author" ;;
       newAuthor <- to_string newAuthor ;;
       alert (js "Book " ++ dquote ++ newTitle ++ dquote ++ js " by "
                ++ newAuthor ++ js " added!"))
      (fun error =>
         console_error [LStr (js "Error creating book:"); LErr error] ;;
         alert (js "Failed to create book: " ++ message error)).

Definition updateBook : M Document unit :=
  idText <- read updateId ;;
  title <- read updateTitle ;;
  author <- read updateAuthor ;;
  let id := parseInt idText in
  let title := trim title in
  let author := trim author in
  if negb (Number_truthy id) || negb (nonempty title)
     || negb (nonempty author) then
    alert (js "Please enter the Book ID, new title, and new author")
  else
    try_catch
      (idString <- number_to_string id ;;
       response <- fetch {| method := PUT;
                            url := API_URL ++ js "/" ++ idString;
                            headers := json_headers;
                            body := Some (JObj [(js "title", JStr title);
                                                (js "author", JStr author)]) |} ;;
       when (negb (ok response))
         (err <- response_json response ;;
          detail <- get err "detail" ;;
          e <- new_Error (or_else detail (js "Failed to update book")) ;;
          throw e) ;;
       updated <- response_json response ;;
       console_log [LStr (js "Updated book:"); LJson updated] ;;
       write (set_updateId []) ;;
       write (set_updateTitle []) ;;
       write (set_updateAuthor []) ;;
       loadBooks ;;
       idString <- number_to_string id ;;
       newTitle <- get updated "title" ;;
       newTitle <- to_string newTitle ;;
       newAuthor <- get updated "author" ;;
       newAuthor <- to_string newAuthor ;;
       alert (js "Book ID " ++ idString ++ js " updated to " ++ dquote
                ++ newTitle ++ dquote ++ js " by " ++ newAuthor))
      (fun error =>
         console_error [LStr (js "Error updating book:"); LErr error] ;;
         alert (js "Failed to update book: " ++ message error)).

Definition deleteHighestBook : M Document unit :=
  confirmed <- confirm
    (js "Are you sure you want to delete the book with the highest ID?") ;;
  if negb confirmed then ret tt
  else
    try_catch
      (response <- fetch {| method := DELETE;
                            url := API_URL ++ js "/highest";
                            headers := []; body := None |} ;;
       when (negb (ok response))
         (err <- response_json response ;;
          detail <- get err "detail" ;;
          e <- new_Error (or_else detail (js "Failed to delete book")) ;;
          throw e) ;;
       console_log [LStr (js "Deleted book with highest ID")] ;;
       loadBooks ;;
       alert (js "Book with the highest ID has been deleted!"))
      (fun error =>
         console_error [LStr (js "Error deleting book:"); LErr error] ;;
         alert (js "Failed to delete book: " ++ message error)).

Definition searchBooks : M Document unit :=
  query <- read searchInput ;;
  let query := trim query in
  if negb (nonempty query) then
    alert (js "Please enter a search term")
  else
    try_catch
      (encoded <- encode_uri_component query ;;
       response <- fetch (get_request (API_URL ++ js "?search=" ++ encoded)) ;;
       when (negb (ok response)) (throw (Error (js "Search failed"))) ;;
       results <- response_json response ;;
       displayBooks results)
      (fun error =>
         console_error [LStr (js "Error searching books:"); LErr error] ;;
         alert (js "Search failed: " ++ message error)).

Definition clearSearch : M Document unit :=
  write (set_searchInput []) ;;
  loadBooks.

(** ** Vocabulary for the statements about the handlers *)

Definition mutate (m : Mutation) : M Document unit :=
  match m with
  | Create => createBook
  | Update => updateBook
  | Delete => deleteHighestBook
  end.

Inductive Handler := LoadBooks | Mutate (m : Mutation) | SearchBooks | ClearSearch.

Definition handle (h : Handler) : M Document unit :=
  match h with
  | LoadBooks => loadBooks
  | Mutate m => mutate m
  | SearchBooks => searchBooks
  | ClearSearch => clearSearch
  end.

(** The client-side validation of each handler. *)
Definition valid (m : Mutation) (d : Document) : bool :=
  match m with
  | Create => nonempty (trim (createTitle d))
              && nonempty (trim (createAuthor d))
  | Update => Number_truthy (parseInt (updateId d))
              && nonempty (trim (updateTitle d))
              && nonempty (trim (updateAuthor d))
  | Delete => true
  end.

(** What a handler alerts when its validation fails. *)
Definition complaint (m : Mutation) : jsstring :=
  match m with
  | Create => js "Please enter both a book title and an author name"
  | Update => js "Please enter the Book ID, new title, and new author"
  | Delete => []
  end.

(** The request each handler sends once its validation passes. *)
Definition request (eng : Engine) (m : Mutation) (d : Document) : Request :=
  match m with
  | Create =>
      {| method := POST; url := API_URL; headers := json_headers;
         body := Some (JObj [(js "title", JStr (trim (createTitle d)));
                             (js "author", JStr (trim (createAuthor d)))]) |}
  | Update =>
      {| method := PUT;
         url := API_URL ++ js "/" ++ Number_toString eng (parseInt (updateId d));
         headers := json_headers;
         body := Some (JObj [(js "title", JStr (trim (updateTitle d)));
                             (js "author", JStr (trim (updateAuthor d)))]) |}
  | Delete =>
      {| method := DELETE; url := API_URL ++ js "/highest";
         headers := []; body := None |}
  end.

(** The confirmation a handler asks for, if any. *)
Definition question (eng : Engine) (m : Mutation) (d : Document)
  : option jsstring :=
  match m with
  | Delete =>
      Some (js "Are you sure you want to delete the book with the highest ID?")
  | _ => None
  end.

Definition reads_body (m : Mutation) : bool :=
  match m with Delete => false | _ => true end.

(** The inputs a handler resets. *)
Definition cleared (m : Mutation) (d : Document) : Document :=
  match m with
  | Create => set_createAuthor [] (set_createTitle [] d)
  | Update => set_updateAuthor [] (set_updateTitle [] (set_updateId [] d))
  | Delete => d
  end.

Definition same_inputs (a b : Document) : Prop :=
  createTitle a = createTitle b /\ createAuthor a = createAuthor b /\
  updateId a = updateId b /\ updateTitle a = updateTitle b /\
  updateAuthor a = updateAuthor b /\ searchInput a = searchInput b.

(** The events before the request, the user's consent, the answer to
    the request, and whether the handler gets through all three. *)
Definition prologue (env : Env) (past : list Event) (m : Mutation)
  (d : Document) : list Event :=
  match question (engine env) m d with
  | Some q => [EConfirm q (confirm_answer env past q)]
  | None => []
  end.

Definition confirmed (env : Env) (past : list Event) (m : Mutation)
  (d : Document) : bool :=
  match question (engine env) m d with
  | Some q => confirm_answer env past q
  | None => true
  end.

Definition answer (env : Env) (past : list Event) (m : Mutation)
  (d : Document) : FetchResult :=
  fetch_answer env (past ++ prologue env past m d) (request (engine env) m d).

Definition succeeds (env : Env) (past : list Event) (m : Mutation)
  (d : Document) : bool :=
  valid m d && confirmed env past m d
  && accepted (reads_body m) (answer env past m d).

(** The request of a search for [query], already trimmed. *)
Definition search_request (encoded : jsstring) : Request :=
  get_request (API_URL ++ js "?search=" ++ encoded).

Definition is_listing (req : Request) : Prop :=
  req = get_request API_URL \/ exists encoded, req = search_request encoded.

(** A book record of the data model and the row it is shown as. *)
Definition as_book (j : JSON) : option (Z * jsstring * jsstring) :=
  match j with
  | JObj members =>
      match own_property (js "id") members,
            own_property (js "title") members,
            own_property (js "author") members with
      | Some (JNum id), Some (JStr title), Some (JStr author) =>
          Some (id, title, author)
      | _, _, _ => None
      end
  | _ => None
  end.

Definition book_row (eng : Engine) (book : Z * jsstring * jsstring) : TR :=
  {| innerHTML :=
      js "
            <td>" ++ Number_toString eng (Int (fst (fst book))) ++ js "</td>
            <td>" ++ snd (fst book) ++ js "</td>
            <td>" ++ snd book ++ js "</td>
        " |}.

(** ** A session: the user fills inputs and triggers handlers *)

Inductive Input :=
| CreateTitle | CreateAuthor | UpdateId | UpdateTitle | UpdateAuthor
| SearchInput.

Definition fill (i : Input) (text : jsstring) : Document -> Document :=
  match i with
  | CreateTitle => set_createTitle text
  | CreateAuthor => set_createAuthor text
  | UpdateId => set_updateId text
  | UpdateTitle => set_updateTitle text
  | UpdateAuthor => set_updateAuthor text
  | SearchInput => set_searchInput text
  end.

Inductive Action :=
| Fill (i : Input) (text : jsstring)
| Invoke (h : Handler).

Record Invocation := {
  invoked : Handler;
  doc_before : Document;
  run : Run Document unit
}.

Fixpoint invocations (actions : list Action) (env : Env)
  (past : list Event) (doc : Document) : list Invocation :=
  match actions with
  | [] => []
  | Fill i text :: rest => invocations rest env past (fill i text doc)
  | Invoke h :: rest =>
      let r := handle h env past doc in
      {| invoked := h; doc_before := doc; run := r |}
        :: invocations rest env (past ++ emitted r) (document r)
  end.

End Books.

(* ================================================================== *)
(** * Sample environments and pages *)

(** An engine with the message texts of V8.  Beyond the safe integer
    range it prints the digits of the integer itself, which is what a
    real engine prints only where the double is that integer. *)
Definition sample_engine : Engine := {|
  double_toString := fun z =>
    (if (z <? 0)%Z then js "-" else []) ++ decimal (Z.to_N (Z.abs z));
  fault_message := fun f =>
    match f with
    | NullProperty p =>
        js "Cannot read properties of null (reading '" ++ p ++ js "')"
    | NotAFunction p => p ++ js " is not a function"
    | NotPrimitive => js "Cannot convert object to primitive value"
    | MalformedURI => js "URI malformed"
    end
|}.

Definition offline : FetchResult :=
  Rejected {| error_name := js "TypeError"; message := js "Failed to fetch" |}.

(** A server that gives the listed answers to the requests in the order
    they arrive and is unreachable afterwards, and a user who always
    answers [consent]. *)
Definition scripted (answers : list FetchResult) (consent : bool) : Env := {|
  engine := sample_engine;
  fetch_answer := fun past _ => nth (List.length (requests past)) answers offline;
  confirm_answer := fun _ _ => consent
|}.

Definition respond (code : N) (v : JSON) : FetchResult :=
  Responded {| status := code; json := inr v |}.

Definition ann : JSON := JObj [(js "id", JNum 1); (js "name", JStr (js "Ann"))].

Definition dune : JSON :=
  JObj [(js "id", JNum 5); (js "title", JStr (js "Dune"));
        (js "author", JStr (js "Herbert"))].

Definition users_page : Users.Document := {|
  Users.userTableBody := [{| innerHTML := js "<td>0</td><td>Zed</td>" |}];
  Users.createName := js " Ann ";
  Users.updateId := js "1";
  Users.updateName := js "Anna";
  Users.deleteId := js "1"
|}.

Definition books_page : Books.Document := {|
  Books.bookTableBody := [];
  Books.createTitle := js "Dune";
  Books.createAuthor := js "Herbert";
  Books.updateId := js "5";
  Books.updateTitle := js "Dune Messiah";
  Books.updateAuthor := js "Frank Herbert";
  Books.searchInput := js "Dune"
|}.

(** A search input holding one unpaired surrogate. *)
Definition surrogate_page : Books.Document :=
  Books.set_searchInput [0xD800%N] books_page.


(* ================================================================== *)
(** * Page load *)

(** A call whose promise is dropped: the caller goes on whatever the
    call ends with. *)
Definition detached {D} (m : M D unit) : M D unit :=
  fun env past doc =>
    match m env past doc with
    | mkRun _ doc' evs => mkRun (Returned tt) doc' evs
    end.

(** [document.addEventListener('DOMContentLoaded', () => { loadUsers(); })] *)
Definition users_DOMContentLoaded : M Users.Document unit :=
  detached Users.loadUsers.

(** [document.addEventListener('DOMContentLoaded', () => { loadBooks(); })] *)
Definition books_DOMContentLoaded : M Books.Document unit :=
  detached Books.loadBooks.

(* ================================================================== *)
(** * Vocabulary for the catch blocks *)

(** The first argument of [console.error] in the catch block of each
    handler. *)
Definition users_catch_label (m : Mutation) : jsstring :=
  match m with
  | Create => js "Error creating user:"
  | Update => js "Error updating user:"
  | Delete => js "Error deleting user:"
  end.

Definition books_catch_label (m : Mutation) : jsstring :=
  match m with
  | Create => js "Error creating book:"
  | Update => js "Error updating book:"
  | Delete => js "Error deleting book:"
  end.

(** The message a handler falls back on when a rejected request carries
    no [detail]. *)
Definition users_fallback (m : Mutation) : jsstring :=
  match m with
  | Create => js "Failed to create user"
  | Update => js "Failed to update user"
  | Delete => js "Failed to delete user"
  end.

Definition books_fallback (m : Mutation) : jsstring :=
  match m with
  | Create => js "Failed to create book"
  | Update => js "Failed to update book"
  | Delete => js "Failed to delete book"
  end.

(** What is thrown on a non-2xx answer:
    [const err = await response.json(); throw new Error(err.detail || fallback)]. *)
Definition thrown_on_rejection (eng : Engine) (fallback : jsstring)
  (r : Response) : JSError :=
  match json r with
  | inl e => e
  | inr err =>
      match Get err (js "detail") with
      | inl f => fault_error eng f
      | inr detail =>
          match ToString eng (or_else detail fallback) with
          | Some text => Error text
          | None => fault_error eng NotPrimitive
          end
      end
  end.

(** A code unit is 16 bits wide. *)
Definition is_code_unit (c : N) : bool := (c <? 65536)%N.

(** The characters [encodeURIComponent] leaves in its result: the
    unreserved ones and the percent sign of an escape (whose two hex
    digits are unreserved themselves). *)
Definition isUriSafe (c : code_unit) : bool := isUnreserved c || (c =? 37)%N.

(** A server that accepts every change and fails every GET. *)
Definition list_unavailable : Env := {|
  engine := sample_engine;
  fetch_answer := fun _ req =>
    match method req with
    | GET => respond 503 JNull
    | _ => respond 200 ann
    end;
  confirm_answer := fun _ _ => true
|}.

(** A server that turns every request down with a [detail]. *)
Definition refusing (code : N) (detail : jsstring) : Env :=
  scripted [respond code (JObj [(js "detail", JStr detail)])] true.

(** A user object with a numeric [id] and no [name] property. *)
Definition users_nameless (j : JSON) : option Z :=
  match j with
  | JObj members =>
      match own_property (js "id") members,
            own_property (js "name") members with
      | Some (JNum id), None => Some id
      | _, _ => None
      end
  | _ => None
  end.



(* ================================================================== *)
(** * Strings and numbers *)

Lemma nonempty_false s : nonempty s = false <-> s = [].
Proof. destruct s; unfold nonempty; split; congruence. Qed.

Lemma nonempty_true s : nonempty s = true <-> s <> [].
Proof. destruct s; unfold nonempty; split; congruence. Qed.

(** A number is truthy exactly when it is an integer other than zero. *)
Lemma Number_truthy_spec n :
  Number_truthy n = true <-> exists z, n = Int z /\ z <> 0%Z.
Proof.
  destruct n as [|z]; unfold Number_truthy.
  - split; [discriminate|intros (z & H & _); discriminate].
  - rewrite negb_true_iff, Z.eqb_neq. split.
    + intros H. now exists z.
    + intros (z' & H & Hz). now injection H as ->.
Qed.

Lemma Number_falsy_spec n :
  Number_truthy n = false <-> n = NaN \/ n = Int 0.
Proof.
  destruct n as [|z]; unfold Number_truthy.
  - split; auto.
  - rewrite negb_false_iff, Z.eqb_eq. split.
    + intros ->. now right.
    + intros [H|H]; [discriminate|now injection H].
Qed.

Lemma unreserved_not_surrogate c :
  isUnreserved c = true ->
  isTrailingSurrogate c = false /\ isLeadingSurrogate c = false.
Proof.
  unfold isUnreserved, isTrailingSurrogate, isLeadingSurrogate.
  rewrite !orb_true_iff, !andb_true_iff, !N.leb_le, !N.eqb_eq.
  intros H. split; apply andb_false_iff; rewrite !N.leb_gt; lia.
Qed.

(** [encodeURIComponent] succeeds on every well-formed string. *)
Lemma encodeURIComponent_wellformed s :
  isWellFormed s = true -> exists e, encodeURIComponent s = Some e.
Proof.
  remember (List.length s) as n eqn:Hn. revert s Hn.
  induction n as [n IH] using lt_wf_ind. intros [|c rest] Hn Hwf.
  - now exists [].
  - cbn [List.length] in Hn. cbn [encodeURIComponent isWellFormed] in *.
    destruct (isUnreserved c) eqn:Hu.
    + destruct (unreserved_not_surrogate c Hu) as [Ht Hl].
      rewrite Ht, Hl in Hwf.
      destruct (IH (List.length rest)) with (s := rest) as [e He];
        [lia|reflexivity|assumption|].
      rewrite He. now eexists.
    + destruct (isTrailingSurrogate c); [discriminate|].
      destruct (isLeadingSurrogate c).
      * destruct rest as [|c2 rest2]; [discriminate|].
        apply andb_true_iff in Hwf as [Ht2 Hwf]. rewrite Ht2.
        destruct (IH (List.length rest2)) with (s := rest2) as [e He];
          [cbn [List.length] in Hn; lia|reflexivity|assumption|].
        rewrite He. now eexists.
      * destruct (IH (List.length rest)) with (s := rest) as [e He];
          [lia|reflexivity|assumption|].
        rewrite He. now eexists.
Qed.

(* ================================================================== *)
(** * Symbolic execution of handlers *)

Arguments js : simpl never.
Arguments dquote : simpl never.
Arguments trim : simpl never.
Arguments parseInt : simpl never.
Arguments Number_toString : simpl never.
Arguments Number_truthy : simpl never.
Arguments encodeURIComponent : simpl never.
Arguments Get : simpl never.
Arguments ToString : simpl never.
Arguments ok : simpl never.
Arguments or_else : simpl never.
Arguments nonempty : simpl never.
Arguments Users.displayUsers : simpl never.
Arguments Users.loadUsers : simpl never.
Arguments Books.displayBooks : simpl never.
Arguments Books.loadBooks : simpl never.

Ltac unfold_monad :=
  unfold new_Error, encode_uri_component, get, to_string, number_to_string,
    response_json, alert, console_log, console_error, confirm, fetch, when,
    fault, emit, read, write, throw, try_catch, bind, after, ret in *.

(** Reduce, and bring the event lists to the form [past ++ e1 :: ...]. *)
Ltac tidy :=
  cbn -[app]; rewrite ?app_nil_r; repeat rewrite <- app_assoc; cbn.

(** Case analysis on the innermost scrutinee the run is stuck on. *)
Ltac break_match :=
  match goal with
  | |- context [negb ?b] =>
      lazymatch b with
      | context [match _ with _ => _ end] => fail
      | true => fail
      | false => fail
      | _ => destruct b eqn:?
      end
  | |- context [match ?x with _ => _ end] =>
      lazymatch x with
      | context [match _ with _ => _ end] => fail
      | _ => destruct x eqn:?
      end
  end.

Ltac exec := repeat (tidy; break_match); tidy.

(** A leaf of the execution in which the loader has run: it cannot have
    thrown, and the run around it is one reload. *)
Ltac load_leaf load_outcome :=
  match goal with
  | H : ?load ?env ?X ?d = mkRun (Threw _) _ _ |- _ =>
      let Ho := fresh in
      pose proof (load_outcome env X d) as Ho; rewrite H in Ho; discriminate
  | H : ?load ?env (?past ++ ?pre) ?d = mkRun (Returned _) _ _
    |- reloads_once _ _ _ _ ?first _ =>
      unfold reloads_once;
      exists (skipn (List.length first) pre); eexists; cbn;
      rewrite H; cbn; repeat split; reflexivity
  end.

(* ================================================================== *)
(** * Events and runs *)

Lemma requests_app a b : requests (a ++ b) = requests a ++ requests b.
Proof.
  induction a as [|e a IH]; [reflexivity|].
  destruct e; cbn; now rewrite IH.
Qed.

Lemma after_nil {D A} (r : Run D A) : after [] r = r.
Proof. now destruct r. Qed.

Lemma list_received_app is_listing a b c d :
  list_received is_listing c -> list_received is_listing (a ++ b ++ c ++ d).
Proof.
  intros (req & r & v & Hin & H). exists req, r, v. split; [|exact H].
  rewrite !in_app_iff. auto.
Qed.

Lemma load_fails_accepted res : load_fails res = negb (accepted true res).
Proof.
  destruct res as [e|r]; [reflexivity|]. unfold load_fails, accepted.
  destruct (ok r); cbn; [|reflexivity]. now destruct (json r).
Qed.

Section RenderLoop.
Context {D : Type} (append : TR -> D -> D) (f : JSON -> M D unit) (env : Env).

(** Each call of the callback either appends one row or throws, the
    same way whatever the document and the past. *)
Hypothesis f_row : forall x, exists res : JSError + TR, forall past doc,
  f x env past doc =
  match res with
  | inr row => mkRun (Returned tt) (append row doc) []
  | inl e => mkRun (Threw e) doc []
  end.

Lemma each_uniform l :
  exists rows o, forall past doc,
    each l f env past doc =
    mkRun o (fold_left (fun d row => append row d) rows doc) [].
Proof.
  induction l as [|x l (rows & o & IH)].
  - exists [], (Returned tt). reflexivity.
  - destruct (f_row x) as [[e|row] Hx].
    + exists [], (Threw e). intros. cbn. unfold bind. now rewrite Hx.
    + exists (row :: rows), o. intros. cbn. unfold bind.
      rewrite Hx, IH. reflexivity.
Qed.
End RenderLoop.

(** The callback of a renderer: every property read and every string
    conversion either goes through or throws. *)
Ltac row_cases env :=
  unfold_monad;
  repeat match goal with
  | |- context [Get ?v ?k] =>
      let H := fresh "Hget" in
      destruct (Get v k) eqn:H; [eexists (inl _); intros; tidy; reflexivity|]
  | |- context [ToString (engine env) ?v] =>
      let H := fresh "Hstr" in
      destruct (ToString (engine env) v) eqn:H;
      [|eexists (inl _); intros; tidy; reflexivity]
  | |- _ => progress tidy
  end;
  eexists (inr _); intros; tidy; reflexivity.

(* ================================================================== *)
(** * The users client *)

Ltac unfold_users :=
  unfold Users.succeeds, Users.valid, Users.confirmed, Users.answer,
    Users.prologue, Users.question, Users.request, Users.reads_body,
    Users.complaint, Users.cleared, Users.mutate, accepted in *.

Lemma users_fold_appendChild rows : forall acc doc,
  fold_left (fun d row => Users.appendChild row d) rows
    (Users.set_userTableBody acc doc)
  = Users.set_userTableBody (acc ++ rows) doc.
Proof.
  induction rows as [|row rows IH]; intros; cbn.
  - now rewrite app_nil_r.
  - change (Users.appendChild row (Users.set_userTableBody acc doc))
      with (Users.set_userTableBody (acc ++ [row]) doc).
    rewrite IH, <- app_assoc. reflexivity.
Qed.

(** What [displayUsers] does depends on the value rendered and on the
    engine only: it puts some rows in place of the old ones, emits
    nothing, and returns or throws. *)
Lemma users_display_uniform users env :
  exists rows o, forall past doc,
    Users.displayUsers users env past doc
    = mkRun o (Users.set_userTableBody rows doc) [].
Proof.
  unfold Users.displayUsers, forEach.
  destruct users as [| | | |l|]; try (eexists [], _; reflexivity).
  match goal with
  | |- context [each l ?f] =>
      destruct (each_uniform Users.appendChild f env) with (l := l)
        as (rows & o & H)
  end.
  - intros user. row_cases env.
  - exists rows, o. intros.
    unfold bind at 1. unfold write at 1. cbn -[each]. rewrite H. cbn.
    now rewrite users_fold_appendChild.
Qed.

(** An array of user records is rendered whole, one row per record. *)
Lemma users_display_records env users recs :
  map Users.as_user users = map Some recs ->
  forall past doc,
    Users.displayUsers (JArr users) env past doc
    = mkRun (Returned tt)
        (Users.set_userTableBody (map (Users.user_row (engine env)) recs) doc) [].
Proof.
  intros Hrec past doc. unfold Users.displayUsers, forEach.
  match goal with |- context [each users ?f] => set (cb := f) end.
  assert (Hcb : forall j u, Users.as_user j = Some u -> forall past doc,
    cb j env past doc
    = mkRun (Returned tt)
        (Users.appendChild (Users.user_row (engine env) u) doc) []).
  { intros j [id name] Hj past' doc'. destruct j; try discriminate.
    unfold Users.as_user in Hj.
    destruct (own_property (js "id") members) as [[]|] eqn:Hid;
      try discriminate.
    destruct (own_property (js "name") members) as [[]|] eqn:Hname;
      try discriminate.
    injection Hj as <- <-. subst cb. unfold_monad. unfold Get.
    rewrite Hid, Hname. reflexivity. }
  assert (Hloop : forall l us, map Users.as_user l = map Some us ->
    forall past doc,
      each l cb env past doc
      = mkRun (Returned tt)
          (fold_left (fun d row => Users.appendChild row d)
             (map (Users.user_row (engine env)) us) doc) []).
  { induction l as [|j l IH]; intros [|u us] Hl past' doc';
      try discriminate; [reflexivity|].
    cbn in Hl. injection Hl as Hj Hl. cbn [each map fold_left].
    unfold bind. rewrite (Hcb _ _ Hj). cbn. now rewrite (IH _ Hl). }
  unfold bind at 1, write at 1. cbn -[each].
  rewrite (Hloop _ _ Hrec). cbn. now rewrite users_fold_appendChild.
Qed.

(** The two ways [loadUsers] ends. *)
Lemma users_load_run env past doc :
  let req := get_request Users.API_URL in
  let res := fetch_answer env past req in
  (load_fails res = true /\ exists e,
     Users.loadUsers env past doc =
     mkRun (Returned tt) doc
       [EFetch req res;
        EConsole level_error [LStr (js "Error loading users:"); LErr e];
        EAlert (js "Failed to load users")])
  \/ (exists r v rows o,
        res = Responded r /\ ok r = true /\ json r = inr v /\
        (forall past' doc',
           Users.displayUsers v env past' doc'
           = mkRun o (Users.set_userTableBody rows doc') []) /\
        Users.loadUsers env past doc =
        mkRun (Returned tt) (Users.set_userTableBody rows doc)
          (EFetch req res ::
           match o with
           | Returned _ => []
           | Threw e =>
               [EConsole level_error [LStr (js "Error loading users:"); LErr e];
                EAlert (js "Failed to load users")]
           end)).
Proof.
  intros req res. unfold Users.loadUsers, load_fails. unfold_monad.
  fold req. fold res.
  destruct res as [e|r] eqn:Hres; tidy.
  { left. split; [reflexivity|eauto]. }
  destruct (ok r) eqn:Hok; tidy.
  2:{ left. split; [reflexivity|eauto]. }
  destruct (json r) as [e|v] eqn:Hjson; tidy.
  { left. split; [reflexivity|eauto]. }
  right. destruct (users_display_uniform v env) as (rows & o & Hd).
  exists r, v, rows, o. repeat split; auto.
  rewrite Hd. destruct o as [[]|e]; reflexivity.
Qed.

Lemma users_load_outcome env past doc :
  outcome (Users.loadUsers env past doc) = Returned tt.
Proof.
  destruct (users_load_run env past doc)
    as [(_ & e & H)|(r & v & rows & o & _ & _ & _ & _ & H)]; now rewrite H.
Qed.

Lemma users_load_requests env past doc :
  requests (emitted (Users.loadUsers env past doc))
  = [get_request Users.API_URL].
Proof.
  destruct (users_load_run env past doc)
    as [(_ & e & H)|(r & v & rows & o & _ & _ & _ & _ & H)];
    rewrite H; [reflexivity|]. now destruct o.
Qed.

Lemma users_load_document env past doc :
  exists rows,
    document (Users.loadUsers env past doc) = Users.set_userTableBody rows doc.
Proof.
  destruct (users_load_run env past doc)
    as [(_ & e & H)|(r & v & rows & o & _ & _ & _ & _ & H)]; rewrite H.
  - exists (Users.userTableBody doc). now destruct doc.
  - now exists rows.
Qed.

Lemma users_load_changes env past doc :
  Users.userTableBody (document (Users.loadUsers env past doc))
    <> Users.userTableBody doc ->
  list_received Users.is_listing (emitted (Users.loadUsers env past doc)).
Proof.
  destruct (users_load_run env past doc)
    as [(_ & e & H)|(r & v & rows & o & Hres & Hok & Hjson & _ & H)];
    rewrite H; cbn; [congruence|]. intros _.
  exists (get_request Users.API_URL), r, v. rewrite Hres.
  cbn. repeat split; auto.
Qed.

(** The ways a handler that changes the collection ends. *)
Lemma users_mutate_run m env past doc :
  let run := Users.mutate m env past doc in
  let first :=
    Users.prologue env past m doc
      ++ [EFetch (Users.request (engine env) m doc) (Users.answer env past m doc)] in
  outcome run = Returned tt /\
  (Users.valid m doc = false ->
   run = mkRun (Returned tt) doc [EAlert (Users.complaint m)]) /\
  (Users.valid m doc = true -> Users.confirmed env past m doc = false ->
   run = mkRun (Returned tt) doc (Users.prologue env past m doc)) /\
  (Users.valid m doc = true -> Users.confirmed env past m doc = true ->
   exists rest, emitted run = first ++ rest) /\
  (Users.succeeds env past m doc = true ->
   reloads_once Users.loadUsers env past (Users.cleared m doc) first run) /\
  (Users.succeeds env past m doc = false ->
   document run = doc /\
   requests (emitted run) =
     if Users.valid m doc && Users.confirmed env past m doc
     then [Users.request (engine env) m doc] else []).
Proof.
  destruct m; unfold_users;
    unfold Users.createUser, Users.updateUser, Users.deleteUser;
    unfold_monad; exec.
  all: try load_leaf users_load_outcome.
  all: repeat split; intros; try discriminate; try reflexivity.
  all: try load_leaf users_load_outcome.
  all: try (eexists; reflexivity).
Qed.

(* ================================================================== *)
(** * The books client *)

Ltac unfold_books :=
  unfold Books.succeeds, Books.valid, Books.confirmed, Books.answer,
    Books.prologue, Books.question, Books.request, Books.reads_body,
    Books.complaint, Books.cleared, Books.mutate, accepted in *.

Lemma books_fold_appendChild rows : forall acc doc,
  fold_left (fun d row => Books.appendChild row d) rows
    (Books.set_bookTableBody acc doc)
  = Books.set_bookTableBody (acc ++ rows) doc.
Proof.
  induction rows as [|row rows IH]; intros; cbn.
  - now rewrite app_nil_r.
  - change (Books.appendChild row (Books.set_bookTableBody acc doc))
      with (Books.set_bookTableBody (acc ++ [row]) doc).
    rewrite IH, <- app_assoc. reflexivity.
Qed.

(** What [displayBooks] does depends on the value rendered and on the
    engine only: it puts some rows in place of the old ones, emits
    nothing, and returns or throws. *)
Lemma books_display_uniform users env :
  exists rows o, forall past doc,
    Books.displayBooks users env past doc
    = mkRun o (Books.set_bookTableBody rows doc) [].
Proof.
  unfold Books.displayBooks, forEach.
  destruct users as [| | | |l|]; try (eexists [], _; reflexivity).
  match goal with
  | |- context [each l ?f] =>
      destruct (each_uniform Books.appendChild f env) with (l := l)
        as (rows & o & H)
  end.
  - intros user. row_cases env.
  - exists rows, o. intros.
    unfold bind at 1. unfold write at 1. cbn -[each]. rewrite H. cbn.
    now rewrite books_fold_appendChild.
Qed.

(** An array of book records is rendered whole, one row per record. *)
Lemma books_display_records env users recs :
  map Books.as_book users = map Some recs ->
  forall past doc,
    Books.displayBooks (JArr users) env past doc
    = mkRun (Returned tt)
        (Books.set_bookTableBody (map (Books.book_row (engine env)) recs) doc) [].
Proof.
  intros Hrec past doc. unfold Books.displayBooks, forEach.
  match goal with |- context [each users ?f] => set (cb := f) end.
  assert (Hcb : forall j u, Books.as_book j = Some u -> forall past doc,
    cb j env past doc
    = mkRun (Returned tt)
        (Books.appendChild (Books.book_row (engine env) u) doc) []).
  { intros j [[id title] author] Hj past' doc'. destruct j; try discriminate.
    unfold Books.as_book in Hj.
    destruct (own_property (js "id") members) as [[]|] eqn:Hid;
      try discriminate.
    destruct (own_property (js "title") members) as [[]|] eqn:Htitle;
      try discriminate.
    destruct (own_property (js "author") members) as [[]|] eqn:Hauthor;
      try discriminate.
    injection Hj as <- <- <-. subst cb. unfold_monad. unfold Get.
    rewrite Hid, Htitle, Hauthor. reflexivity. }
  assert (Hloop : forall l bs, map Books.as_book l = map Some bs ->
    forall past doc,
      each l cb env past doc
      = mkRun (Returned tt)
          (fold_left (fun d row => Books.appendChild row d)
             (map (Books.book_row (engine env)) bs) doc) []).
  { induction l as [|j l IH]; intros [|b bs] Hl past' doc';
      try discriminate; [reflexivity|].
    cbn in Hl. injection Hl as Hj Hl. cbn [each map fold_left].
    unfold bind. rewrite (Hcb _ _ Hj). cbn. now rewrite (IH _ Hl). }
  unfold bind at 1, write at 1. cbn -[each].
  rewrite (Hloop _ _ Hrec). cbn. now rewrite books_fold_appendChild.
Qed.

(** The two ways [loadBooks] ends. *)
Lemma books_load_run env past doc :
  let req := get_request Books.API_URL in
  let res := fetch_answer env past req in
  (load_fails res = true /\ exists e,
     Books.loadBooks env past doc =
     mkRun (Returned tt) doc
       [EFetch req res;
        EConsole level_error [LStr (js "Error loading books:"); LErr e];
        EAlert (js "Failed to load books")])
  \/ (exists r v rows o,
        res = Responded r /\ ok r = true /\ json r = inr v /\
        (forall past' doc',
           Books.displayBooks v env past' doc'
           = mkRun o (Books.set_bookTableBody rows doc') []) /\
        Books.loadBooks env past doc =
        mkRun (Returned tt) (Books.set_bookTableBody rows doc)
          (EFetch req res ::
           match o with
           | Returned _ => []
           | Threw e =>
               [EConsole level_error [LStr (js "Error loading books:"); LErr e];
                EAlert (js "Failed to load books")]
           end)).
Proof.
  intros req res. unfold Books.loadBooks, load_fails. unfold_monad.
  fold req. fold res.
  destruct res as [e|r] eqn:Hres; tidy.
  { left. split; [reflexivity|eauto]. }
  destruct (ok r) eqn:Hok; tidy.
  2:{ left. split; [reflexivity|eauto]. }
  destruct (json r) as [e|v] eqn:Hjson; tidy.
  { left. split; [reflexivity|eauto]. }
  right. destruct (books_display_uniform v env) as (rows & o & Hd).
  exists r, v, rows, o. repeat split; auto.
  rewrite Hd. destruct o as [[]|e]; reflexivity.
Qed.

Lemma books_load_outcome env past doc :
  outcome (Books.loadBooks env past doc) = Returned tt.
Proof.
  destruct (books_load_run env past doc)
    as [(_ & e & H)|(r & v & rows & o & _ & _ & _ & _ & H)]; now rewrite H.
Qed.

Lemma books_load_requests env past doc :
  requests (emitted (Books.loadBooks env past doc))
  = [get_request Books.API_URL].
Proof.
  destruct (books_load_run env past doc)
    as [(_ & e & H)|(r & v & rows & o & _ & _ & _ & _ & H)];
    rewrite H; [reflexivity|]. now destruct o.
Qed.

Lemma books_load_document env past doc :
  exists rows,
    document (Books.loadBooks env past doc) = Books.set_bookTableBody rows doc.
Proof.
  destruct (books_load_run env past doc)
    as [(_ & e & H)|(r & v & rows & o & _ & _ & _ & _ & H)]; rewrite H.
  - exists (Books.bookTableBody doc). now destruct doc.
  - now exists rows.
Qed.

Lemma books_load_changes env past doc :
  Books.bookTableBody (document (Books.loadBooks env past doc))
    <> Books.bookTableBody doc ->
  list_received Books.is_listing (emitted (Books.loadBooks env past doc)).
Proof.
  destruct (books_load_run env past doc)
    as [(_ & e & H)|(r & v & rows & o & Hres & Hok & Hjson & _ & H)];
    rewrite H; cbn; [congruence|]. intros _.
  exists (get_request Books.API_URL), r, v. rewrite Hres.
  split; [now left|]. split; [now left|]. now split.
Qed.

(** The ways a handler that changes the collection ends. *)
Lemma books_mutate_run m env past doc :
  let run := Books.mutate m env past doc in
  let first :=
    Books.prologue env past m doc
      ++ [EFetch (Books.request (engine env) m doc) (Books.answer env past m doc)] in
  outcome run = Returned tt /\
  (Books.valid m doc = false ->
   run = mkRun (Returned tt) doc [EAlert (Books.complaint m)]) /\
  (Books.valid m doc = true -> Books.confirmed env past m doc = false ->
   run = mkRun (Returned tt) doc (Books.prologue env past m doc)) /\
  (Books.valid m doc = true -> Books.confirmed env past m doc = true ->
   exists rest, emitted run = first ++ rest) /\
  (Books.succeeds env past m doc = true ->
   reloads_once Books.loadBooks env past (Books.cleared m doc) first run) /\
  (Books.succeeds env past m doc = false ->
   document run = doc /\
   requests (emitted run) =
     if Books.valid m doc && Books.confirmed env past m doc
     then [Books.request (engine env) m doc] else []).
Proof.
  destruct m; unfold_books;
    unfold Books.createBook, Books.updateBook, Books.deleteHighestBook;
    unfold_monad; exec.
  all: try load_leaf books_load_outcome.
  all: repeat split; intros; try discriminate; try reflexivity.
  all: try load_leaf books_load_outcome.
  all: try (eexists; reflexivity).
Qed.

(** The ways [searchBooks] ends. *)
Lemma books_search_run env past doc :
  let run := Books.searchBooks env past doc in
  let query := trim (Books.searchInput doc) in
  (query = [] ->
   run = mkRun (Returned tt) doc [EAlert (js "Please enter a search term")]) /\
  (query <> [] -> encodeURIComponent query = None ->
   let e := fault_error (engine env) MalformedURI in
   run = mkRun (Returned tt) doc
           [EConsole level_error [LStr (js "Error searching books:"); LErr e];
            EAlert (js "Search failed: " ++ message e)]) /\
  (forall encoded,
     query <> [] -> encodeURIComponent query = Some encoded ->
     let req := Books.search_request encoded in
     let res := fetch_answer env past req in
     (load_fails res = true /\ exists e,
        run = mkRun (Returned tt) doc
                [EFetch req res;
                 EConsole level_error
                   [LStr (js "Error searching books:"); LErr e];
                 EAlert (js "Search failed: " ++ message e)])
     \/ (exists r v rows o,
           res = Responded r /\ ok r = true /\ json r = inr v /\
           (forall past' doc',
              Books.displayBooks v env past' doc'
              = mkRun o (Books.set_bookTableBody rows doc') []) /\
           run =
           mkRun (Returned tt) (Books.set_bookTableBody rows doc)
             (EFetch req res ::
              match o with
              | Returned _ => []
              | Threw e =>
                  [EConsole level_error
                     [LStr (js "Error searching books:"); LErr e];
                   EAlert (js "Search failed: " ++ message e)]
              end))).
Proof.
  intros run query. subst run. unfold Books.searchBooks. unfold_monad.
  fold query. tidy.
  destruct (nonempty query) eqn:Hq; tidy.
  2:{ apply nonempty_false in Hq.
      split; [reflexivity|]. split; intros; contradiction. }
  apply nonempty_true in Hq.
  split; [intros; contradiction|].
  destruct (encodeURIComponent query) as [encoded|] eqn:Henc; tidy.
  2:{ split; [reflexivity|discriminate]. }
  split; [discriminate|]. intros encoded' _ [= <-].
  unfold Books.search_request, load_fails.
  destruct (fetch_answer env past _) as [e|r] eqn:Hres; tidy.
  { left. split; [reflexivity|eexists; reflexivity]. }
  destruct (ok r) eqn:Hok; tidy.
  2:{ left. split; [reflexivity|]. now exists (Error (js "Search failed")). }
  destruct (json r) as [e|v] eqn:Hjson; tidy.
  { left. split; [reflexivity|eexists; reflexivity]. }
  right. destruct (books_display_uniform v env) as (rows & o & Hd).
  exists r, v, rows, o. repeat split; auto.
  rewrite Hd. destruct o as [[]|e]; reflexivity.
Qed.

Lemma books_clearSearch_run env past doc :
  Books.clearSearch env past doc
  = Books.loadBooks env past (Books.set_searchInput [] doc).
Proof.
  unfold Books.clearSearch. unfold_monad. tidy. apply after_nil.
Qed.

(* ================================================================== *)
(** * Consequences for whole invocations *)

Lemma reloads_once_elim {D} (load : M D unit) env past doc' first run :
  reloads_once load env past doc' first run ->
  exists before afterwards,
    emitted run
    = first ++ before
        ++ emitted (load env (past ++ first ++ before) doc') ++ afterwards /\
    requests before = [] /\ requests afterwards = [] /\
    document run = document (load env (past ++ first ++ before) doc').
Proof. intros H. exact H. Qed.

Lemma users_prologue_requests env past m doc :
  requests (Users.prologue env past m doc) = [].
Proof. unfold Users.prologue. now destruct (Users.question _ m doc). Qed.

Lemma books_prologue_requests env past m doc :
  requests (Books.prologue env past m doc) = [].
Proof. unfold Books.prologue. now destruct (Books.question _ m doc). Qed.

Lemma users_cleared_table m doc :
  Users.userTableBody (Users.cleared m doc) = Users.userTableBody doc.
Proof. now destruct m. Qed.

Lemma books_cleared_table m doc :
  Books.bookTableBody (Books.cleared m doc) = Books.bookTableBody doc.
Proof. now destruct m. Qed.

Lemma users_same_inputs_set rows doc :
  Users.same_inputs (Users.set_userTableBody rows doc) doc.
Proof. now repeat split. Qed.

Lemma books_same_inputs_set rows doc :
  Books.same_inputs (Books.set_bookTableBody rows doc) doc.
Proof. now repeat split. Qed.

(** A handler of the users client changes the table only if it received
    the list. *)
Lemma users_handle_changes h env past doc :
  Users.userTableBody (document (Users.handle h env past doc))
    <> Users.userTableBody doc ->
  list_received Users.is_listing (emitted (Users.handle h env past doc)).
Proof.
  destruct h as [|m]; cbn [Users.handle]; [apply users_load_changes|].
  pose proof (users_mutate_run m env past doc) as H. cbv zeta in H.
  destruct H as (_ & _ & _ & _ & Hs & Hf).
  destruct (Users.succeeds env past m doc).
  - apply reloads_once_elim in Hs; [|reflexivity].
    destruct Hs as (before & afterwards & Hem & _ & _ & Hdoc).
    rewrite Hem, Hdoc, <- (users_cleared_table m doc). intros Hch.
    apply list_received_app. now apply users_load_changes.
  - destruct (Hf eq_refl) as [-> _]. congruence.
Qed.

(** The same for the books client, where a search receives a list too. *)
Lemma books_handle_changes h env past doc :
  Books.bookTableBody (document (Books.handle h env past doc))
    <> Books.bookTableBody doc ->
  list_received Books.is_listing (emitted (Books.handle h env past doc)).
Proof.
  destruct h as [|m| |]; cbn [Books.handle].
  - apply books_load_changes.
  - pose proof (books_mutate_run m env past doc) as H. cbv zeta in H.
    destruct H as (_ & _ & _ & _ & Hs & Hf).
    destruct (Books.succeeds env past m doc).
    + apply reloads_once_elim in Hs; [|reflexivity].
      destruct Hs as (before & afterwards & Hem & _ & _ & Hdoc).
      rewrite Hem, Hdoc, <- (books_cleared_table m doc). intros Hch.
      apply list_received_app. now apply books_load_changes.
    + destruct (Hf eq_refl) as [-> _]. congruence.
  - pose proof (books_search_run env past doc) as H. cbv zeta in H.
    destruct H as (Hempty & Hbad & Hgood).
    destruct (trim (Books.searchInput doc)) as [|c q] eqn:Hq.
    { rewrite (Hempty eq_refl). cbn. congruence. }
    destruct (encodeURIComponent (c :: q)) as [encoded|] eqn:Henc.
    2:{ rewrite (Hbad ltac:(discriminate) eq_refl). cbn. congruence. }
    destruct (Hgood encoded ltac:(discriminate) eq_refl)
      as [(_ & e & ->)|(r & v & rows & o & Hres & Hok & Hjson & _ & ->)];
      cbn; [congruence|]. intros _.
    exists (Books.search_request encoded), r, v. rewrite Hres.
    split; [now left|]. split; [right; now exists encoded|now split].
  - rewrite books_clearSearch_run.
    change (Books.bookTableBody doc)
      with (Books.bookTableBody (Books.set_searchInput [] doc)).
    apply books_load_changes.
Qed.

Lemma encodeURIComponent_illformed s :
  isWellFormed s = false -> encodeURIComponent s = None.
Proof.
  remember (List.length s) as n eqn:Hn. revert s Hn.
  induction n as [n IH] using lt_wf_ind. intros [|c rest] Hn Hwf.
  - discriminate.
  - cbn [List.length] in Hn.
    change (isWellFormed (c :: rest)) with
      (if isTrailingSurrogate c then false
       else if isLeadingSurrogate c then
         match rest with
         | [] => false
         | c2 :: rest2 => isTrailingSurrogate c2 && isWellFormed rest2
         end
       else isWellFormed rest) in Hwf.
    change (encodeURIComponent (c :: rest)) with
      (if isUnreserved c then option_map (cons c) (encodeURIComponent rest)
       else if isTrailingSurrogate c then None
       else if isLeadingSurrogate c then
         match rest with
         | [] => None
         | c2 :: rest2 =>
             if isTrailingSurrogate c2 then
               option_map
                 (app (percent_encode
                         ((c - 0xD800) * 0x400 + (c2 - 0xDC00) + 0x10000)%N))
                 (encodeURIComponent rest2)
             else None
         end
       else option_map (app (percent_encode c)) (encodeURIComponent rest)).
    destruct (isUnreserved c) eqn:Hu.
    + destruct (unreserved_not_surrogate c Hu) as [Ht Hl].
      rewrite Ht, Hl in Hwf.
      now rewrite (IH (List.length rest) ltac:(lia) rest eq_refl Hwf).
    + destruct (isTrailingSurrogate c); [reflexivity|].
      destruct (isLeadingSurrogate c).
      * destruct rest as [|c2 rest2]; [reflexivity|].
        destruct (isTrailingSurrogate c2); [|reflexivity].
        cbn [andb] in Hwf. cbn [List.length] in Hn.
        now rewrite (IH (List.length rest2) ltac:(lia) rest2 eq_refl Hwf).
      * now rewrite (IH (List.length rest) ltac:(lia) rest eq_refl Hwf).
Qed.

(* ================================================================== *)
(** * The properties of the specification *)

(** C1, as stated, fails: a successful search changes the table body
    although the only request of the invocation is the search request,
    not a reload of the full list. *)
Lemma search_changes_table_without_reload :
  Books.bookTableBody
    (document (Books.handle Books.SearchBooks
                 (scripted [respond 200 (JArr [dune])] true) [] books_page))
    <> Books.bookTableBody books_page /\
  requests
    (emitted (Books.handle Books.SearchBooks
                (scripted [respond 200 (JArr [dune])] true) [] books_page))
    = [Books.search_request (js "Dune")] /\
  Books.search_request (js "Dune") <> get_request Books.API_URL.
Proof. vm_compute. repeat split; discriminate. Qed.

(** C1, amended: in every session of either client (the user fills
    inputs and triggers handlers in any order), an invocation changes
    the table body only if during it a request for a list, the full one
    or for [searchBooks] the filtered one, was answered with a 2xx
    status and a body that parsed; so no invocation in which that
    request failed (network failure, non-2xx, parse failure) or was
    never sent changes the table body. *)
Theorem table_changes_only_on_received_list (env : Env) (past : list Event) :
  (forall actions doc,
     Forall (fun inv =>
               Users.userTableBody (document (Users.run inv))
                 <> Users.userTableBody (Users.doc_before inv) ->
               list_received Users.is_listing (emitted (Users.run inv)))
       (Users.invocations actions env past doc)) /\
  (forall actions doc,
     Forall (fun inv =>
               Books.bookTableBody (document (Books.run inv))
                 <> Books.bookTableBody (Books.doc_before inv) ->
               list_received Books.is_listing (emitted (Books.run inv)))
       (Books.invocations actions env past doc)).
Proof.
  split; intros actions; revert past;
    induction actions as [|[i text|h] actions IH]; intros past doc;
    cbn [Users.invocations Books.invocations]; try constructor; auto.
  - cbn. apply users_handle_changes.
  - cbn. apply books_handle_changes.
Qed.

Lemma table_changes_only_on_received_list_witness :
  list_received Users.is_listing
    (emitted (Users.handle Users.LoadUsers
                (scripted [respond 200 (JArr [ann])] true) [] users_page)).
Proof.
  apply (Forall_inv
           (proj1 (table_changes_only_on_received_list
                     (scripted [respond 200 (JArr [ann])] true) [])
              [Users.Invoke Users.LoadUsers] users_page)).
  vm_compute. discriminate.
Defined.

(** C2: when a required field of a create form is empty after trimming,
    the create handler shows an alert and returns: it sends no request
    and leaves the document as it was. *)
Theorem create_rejects_empty_fields (env : Env) (past : list Event) :
  (forall doc,
     trim (Users.createName doc) = [] ->
     Users.createUser env past doc
     = mkRun (Returned tt) doc [EAlert (js "Please enter a user name")]) /\
  (forall doc,
     trim (Books.createTitle doc) = [] \/ trim (Books.createAuthor doc) = [] ->
     Books.createBook env past doc
     = mkRun (Returned tt) doc
         [EAlert (js "Please enter both a book title and an author name")]).
Proof.
  split; intros doc H.
  - pose proof (users_mutate_run Create env past doc) as R. cbv zeta in R.
    apply R. cbn [Users.valid]. now apply nonempty_false.
  - pose proof (books_mutate_run Create env past doc) as R. cbv zeta in R.
    apply R. cbn [Books.valid]. apply andb_false_iff.
    destruct H as [H|H]; [left|right]; now apply nonempty_false.
Qed.

Lemma create_rejects_empty_fields_witness :
  Users.createUser (scripted [] true) []
    (Users.set_createName (js "   ") users_page)
  = mkRun (Returned tt) (Users.set_createName (js "   ") users_page)
      [EAlert (js "Please enter a user name")] /\
  Books.createBook (scripted [] true) []
    (Books.set_createAuthor (js " ") books_page)
  = mkRun (Returned tt) (Books.set_createAuthor (js " ") books_page)
      [EAlert (js "Please enter both a book title and an author name")].
Proof.
  split.
  - apply (proj1 (create_rejects_empty_fields (scripted [] true) [])).
    reflexivity.
  - apply (proj2 (create_rejects_empty_fields (scripted [] true) [])).
    right. reflexivity.
Defined.

(** C3: when the request of a create, update or delete handler succeeds
    (it is answered 2xx and, where the handler reads the body, the body
    parses), the handler runs the loader exactly once before it
    completes: its requests are its own and then one GET of the
    collection endpoint, and the document it leaves is the one that
    reload leaves (the answer rendered, if the reload went through). *)
Theorem successful_mutation_reloads_once
  (m : Mutation) (env : Env) (past : list Event) :
  (forall doc,
     Users.succeeds env past m doc = true ->
     reloads_once Users.loadUsers env past (Users.cleared m doc)
       (Users.prologue env past m doc
          ++ [EFetch (Users.request (engine env) m doc)
                (Users.answer env past m doc)])
       (Users.mutate m env past doc) /\
     requests (emitted (Users.mutate m env past doc))
     = [Users.request (engine env) m doc; get_request Users.API_URL]) /\
  (forall doc,
     Books.succeeds env past m doc = true ->
     reloads_once Books.loadBooks env past (Books.cleared m doc)
       (Books.prologue env past m doc
          ++ [EFetch (Books.request (engine env) m doc)
                (Books.answer env past m doc)])
       (Books.mutate m env past doc) /\
     requests (emitted (Books.mutate m env past doc))
     = [Books.request (engine env) m doc; get_request Books.API_URL]).
Proof.
  split; intros doc Hs.
  - pose proof (users_mutate_run m env past doc) as R. cbv zeta in R.
    destruct R as (_ & _ & _ & _ & R & _). specialize (R Hs).
    split; [exact R|]. apply reloads_once_elim in R.
    destruct R as (before & afterwards & -> & Hb & Ha & _).
    rewrite !requests_app, users_prologue_requests, Hb, Ha,
      users_load_requests. reflexivity.
  - pose proof (books_mutate_run m env past doc) as R. cbv zeta in R.
    destruct R as (_ & _ & _ & _ & R & _). specialize (R Hs).
    split; [exact R|]. apply reloads_once_elim in R.
    destruct R as (before & afterwards & -> & Hb & Ha & _).
    rewrite !requests_app, books_prologue_requests, Hb, Ha,
      books_load_requests. reflexivity.
Qed.

Lemma successful_mutation_reloads_once_witness :
  requests
    (emitted (Users.mutate Create
                (scripted [respond 201 ann; respond 200 (JArr [ann])] true)
                [] users_page))
  = [Users.request sample_engine Create users_page;
     get_request Users.API_URL] /\
  requests
    (emitted (Books.mutate Delete
                (scripted [respond 200 JNull; respond 200 (JArr [])] true)
                [] books_page))
  = [Books.request sample_engine Delete books_page;
     get_request Books.API_URL].
Proof.
  split.
  - apply (proj1 (successful_mutation_reloads_once Create
                    (scripted [respond 201 ann; respond 200 (JArr [ann])] true)
                    [])).
    reflexivity.
  - apply (proj2 (successful_mutation_reloads_once Delete
                    (scripted [respond 200 JNull; respond 200 (JArr [])] true)
                    [])).
    reflexivity.
Defined.

(** C4: when the request of a loader fails (network failure, non-2xx
    status or a body that does not parse), the loader catches the
    error, logs it on the console, alerts the user and leaves the
    document, the table body with it, exactly as it was. *)
Theorem failed_load_keeps_table (env : Env) (past : list Event) :
  (forall doc,
     let req := get_request Users.API_URL in
     load_fails (fetch_answer env past req) = true ->
     exists e,
       Users.loadUsers env past doc
       = mkRun (Returned tt) doc
           [EFetch req (fetch_answer env past req);
            EConsole level_error [LStr (js "Error loading users:"); LErr e];
            EAlert (js "Failed to load users")]) /\
  (forall doc,
     let req := get_request Books.API_URL in
     load_fails (fetch_answer env past req) = true ->
     exists e,
       Books.loadBooks env past doc
       = mkRun (Returned tt) doc
           [EFetch req (fetch_answer env past req);
            EConsole level_error [LStr (js "Error loading books:"); LErr e];
            EAlert (js "Failed to load books")]).
Proof.
  split; intros doc req Hfail.
  - destruct (users_load_run env past doc)
      as [(_ & e & H)|(r & v & rows & o & Hres & Hok & Hjson & _)];
      [now exists e|].
    subst req. rewrite Hres in Hfail. unfold load_fails in Hfail.
    rewrite Hok, Hjson in Hfail. discriminate.
  - destruct (books_load_run env past doc)
      as [(_ & e & H)|(r & v & rows & o & Hres & Hok & Hjson & _)];
      [now exists e|].
    subst req. rewrite Hres in Hfail. unfold load_fails in Hfail.
    rewrite Hok, Hjson in Hfail. discriminate.
Qed.

Lemma failed_load_keeps_table_witness :
  (exists e,
     Users.loadUsers (scripted [respond 500 JNull] true) [] users_page
     = mkRun (Returned tt) users_page
         [EFetch (get_request Users.API_URL) (respond 500 JNull);
          EConsole level_error [LStr (js "Error loading users:"); LErr e];
          EAlert (js "Failed to load users")]) /\
  (exists e,
     Books.loadBooks (scripted [] true) [] books_page
     = mkRun (Returned tt) books_page
         [EFetch (get_request Books.API_URL) offline;
          EConsole level_error [LStr (js "Error loading books:"); LErr e];
          EAlert (js "Failed to load books")]).
Proof.
  split.
  - apply (proj1 (failed_load_keeps_table (scripted [respond 500 JNull] true) [])
             users_page).
    reflexivity.
  - apply (proj2 (failed_load_keeps_table (scripted [] true) []) books_page).
    reflexivity.
Defined.

(** C5: the renderer first clears the table body and then appends one
    row per record, in the order of the array, whatever the table held
    before; an empty array leaves no row. *)
Theorem renderer_appends_one_row_per_record (env : Env) (past : list Event) :
  (forall doc users recs,
     map Users.as_user users = map Some recs ->
     Users.displayUsers (JArr users) env past doc
     = mkRun (Returned tt)
         (Users.set_userTableBody
            (map (Users.user_row (engine env)) recs) doc) []) /\
  (forall doc books recs,
     map Books.as_book books = map Some recs ->
     Books.displayBooks (JArr books) env past doc
     = mkRun (Returned tt)
         (Books.set_bookTableBody
            (map (Books.book_row (engine env)) recs) doc) []) /\
  (forall doc,
     Users.userTableBody
       (document (Users.displayUsers (JArr []) env past doc)) = []) /\
  (forall doc,
     Books.bookTableBody
       (document (Books.displayBooks (JArr []) env past doc)) = []).
Proof.
  split; [|split; [|split]]; intros.
  - now apply users_display_records.
  - now apply books_display_records.
  - now rewrite (users_display_records env [] []).
  - now rewrite (books_display_records env [] []).
Qed.

Lemma renderer_appends_one_row_per_record_witness :
  Users.userTableBody
    (document (Users.displayUsers (JArr [ann; ann]) (scripted [] true) []
                 users_page))
  = [Users.user_row sample_engine (1%Z, js "Ann");
     Users.user_row sample_engine (1%Z, js "Ann")] /\
  Books.bookTableBody
    (document (Books.displayBooks (JArr [dune]) (scripted [] true) []
                 books_page))
  = [Books.book_row sample_engine (5%Z, js "Dune", js "Herbert")].
Proof.
  split.
  - rewrite (proj1 (renderer_appends_one_row_per_record (scripted [] true) [])
               users_page [ann; ann] [(1%Z, js "Ann"); (1%Z, js "Ann")]);
      reflexivity.
  - rewrite (proj1 (proj2 (renderer_appends_one_row_per_record
                             (scripted [] true) []))
               books_page [dune] [(5%Z, js "Dune", js "Herbert")]);
      reflexivity.
Defined.

(** C6: rendering is idempotent: for every array, rendering it a second
    time right after the first leaves the document, and so the table
    body, as the first rendering left it. *)
Theorem render_idempotent
  (env : Env) (past past' : list Event) (records : list JSON) :
  (forall doc,
     document (Users.displayUsers (JArr records) env past'
                 (document (Users.displayUsers (JArr records) env past doc)))
     = document (Users.displayUsers (JArr records) env past doc)) /\
  (forall doc,
     document (Books.displayBooks (JArr records) env past'
                 (document (Books.displayBooks (JArr records) env past doc)))
     = document (Books.displayBooks (JArr records) env past doc)).
Proof.
  split; intros doc.
  - destruct (users_display_uniform (JArr records) env) as (rows & o & H).
    now rewrite !H.
  - destruct (books_display_uniform (JArr records) env) as (rows & o & H).
    now rewrite !H.
Qed.

(** C7, as stated, fails: a search input holding an unpaired surrogate
    is not empty after trimming, yet the handler sends no request:
    [encodeURIComponent] throws, which the handler catches and alerts. *)
Lemma search_with_unpaired_surrogate_sends_nothing :
  trim (Books.searchInput surrogate_page) <> [] /\
  Books.searchBooks (scripted [respond 200 (JArr [dune])] true) []
    surrogate_page
  = mkRun (Returned tt) surrogate_page
      [EConsole level_error
         [LStr (js "Error searching books:");
          LErr {| error_name := js "URIError"; message := js "URI malformed" |}];
       EAlert (js "Search failed: URI malformed")].
Proof. vm_compute. split; [discriminate|reflexivity]. Qed.

(** C7, amended: for every search query that is not empty after
    trimming and holds no unpaired surrogate, the search handler sends
    exactly one request, a GET whose URL carries the URL-encoded query
    as the search parameter, and when it is answered 2xx with an array
    of book records it renders that array in place of what the table
    held; for a query with an unpaired surrogate it sends none.
    Clearing the search empties the search input and reloads the
    unfiltered list. *)
Theorem search_sends_one_request (env : Env) (past : list Event) :
  (forall doc,
     let query := trim (Books.searchInput doc) in
     let run := Books.searchBooks env past doc in
     query <> [] -> isWellFormed query = true ->
     exists encoded rest,
       encodeURIComponent query = Some encoded /\
       emitted run
       = EFetch (Books.search_request encoded)
           (fetch_answer env past (Books.search_request encoded)) :: rest /\
       requests rest = [] /\
       (forall r books recs,
          fetch_answer env past (Books.search_request encoded) = Responded r ->
          ok r = true -> json r = inr (JArr books) ->
          map Books.as_book books = map Some recs ->
          document run
          = Books.set_bookTableBody
              (map (Books.book_row (engine env)) recs) doc)) /\
  (forall doc,
     let query := trim (Books.searchInput doc) in
     query <> [] -> isWellFormed query = false ->
     requests (emitted (Books.searchBooks env past doc)) = []) /\
  (forall doc,
     let run := Books.clearSearch env past doc in
     run = Books.loadBooks env past (Books.set_searchInput [] doc) /\
     Books.searchInput (document run) = [] /\
     requests (emitted run) = [get_request Books.API_URL]).
Proof.
  split; [|split].
  - intros doc query run Hq Hwf.
    destruct (encodeURIComponent_wellformed query Hwf) as [encoded Henc].
    pose proof (books_search_run env past doc) as H. cbv zeta in H.
    destruct H as (_ & _ & H). specialize (H encoded Hq Henc).
    exists encoded. fold run in H.
    destruct H as [(Hfail & e & ->)|(r & v & rows & o & Hres & Hok & Hjson & Hd & ->)].
    + eexists. split; [exact Henc|]. repeat split; try reflexivity.
      intros r books recs Hres Hok Hjson _. rewrite Hres in Hfail.
      unfold load_fails in Hfail. rewrite Hok, Hjson in Hfail. discriminate.
    + rewrite Hres. eexists. split; [exact Henc|].
      repeat split; try reflexivity.
      * now destruct o.
      * intros r' books recs [= <-] _ Hjson' Hrec. cbn.
        rewrite Hjson in Hjson'. injection Hjson' as ->.
        specialize (Hd past doc).
        rewrite (books_display_records env books recs Hrec) in Hd.
        now injection Hd as _ ->.
  - intros doc query Hq Hwf.
    pose proof (books_search_run env past doc) as H. cbv zeta in H.
    destruct H as (_ & H & _).
    now rewrite (H Hq (encodeURIComponent_illformed query Hwf)).
  - intros doc run. subst run. rewrite books_clearSearch_run.
    split; [reflexivity|]. split; [|apply books_load_requests].
    destruct (books_load_document env past (Books.set_searchInput [] doc))
      as [rows ->]. reflexivity.
Qed.

Lemma search_sends_one_request_witness :
  exists encoded rest,
    encodeURIComponent (trim (js " Dune & co ")) = Some encoded /\
    emitted (Books.searchBooks (scripted [respond 200 (JArr [dune])] true) []
               (Books.set_searchInput (js " Dune & co ") books_page))
    = EFetch (Books.search_request encoded)
        (fetch_answer (scripted [respond 200 (JArr [dune])] true) []
           (Books.search_request encoded)) :: rest /\
    requests rest = [] /\
    (forall r books recs,
       fetch_answer (scripted [respond 200 (JArr [dune])] true) []
         (Books.search_request encoded) = Responded r ->
       ok r = true -> json r = inr (JArr books) ->
       map Books.as_book books = map Some recs ->
       document (Books.searchBooks (scripted [respond 200 (JArr [dune])] true)
                   [] (Books.set_searchInput (js " Dune & co ") books_page))
       = Books.set_bookTableBody
           (map (Books.book_row sample_engine) recs)
           (Books.set_searchInput (js " Dune & co ") books_page)).
Proof.
  apply (proj1 (search_sends_one_request
                  (scripted [respond 200 (JArr [dune])] true) [])
           (Books.set_searchInput (js " Dune & co ") books_page)).
  - vm_compute. discriminate.
  - reflexivity.
Defined.

(** C8: an update handler parses the identifier input as an integer and
    sends its PUT request only when the parsed identifier is truthy
    (not [NaN], not zero) and every new field is non-empty after
    trimming; otherwise it alerts and returns without a request. *)
Theorem update_validates_before_put (env : Env) (past : list Event) :
  (forall doc,
     parseInt (Users.updateId doc) = NaN \/
     parseInt (Users.updateId doc) = Int 0 \/
     trim (Users.updateName doc) = [] ->
     Users.updateUser env past doc
     = mkRun (Returned tt) doc
         [EAlert (js "Please enter both User ID and new name")]) /\
  (forall doc id,
     parseInt (Users.updateId doc) = Int id -> id <> 0%Z ->
     trim (Users.updateName doc) <> [] ->
     let req :=
       {| method := PUT;
          url := Users.API_URL ++ js "/" ++ Number_toString (engine env) (Int id);
          headers := [(js "Content-Type", js "application/json")];
          body := Some (JObj [(js "name", JStr (trim (Users.updateName doc)))]) |} in
     exists rest,
       emitted (Users.updateUser env past doc)
       = EFetch req (fetch_answer env past req) :: rest) /\
  (forall doc,
     parseInt (Books.updateId doc) = NaN \/
     parseInt (Books.updateId doc) = Int 0 \/
     trim (Books.updateTitle doc) = [] \/
     trim (Books.updateAuthor doc) = [] ->
     Books.updateBook env past doc
     = mkRun (Returned tt) doc
         [EAlert (js "Please enter the Book ID, new title, and new author")]) /\
  (forall doc id,
     parseInt (Books.updateId doc) = Int id -> id <> 0%Z ->
     trim (Books.updateTitle doc) <> [] ->
     trim (Books.updateAuthor doc) <> [] ->
     let req :=
       {| method := PUT;
          url := Books.API_URL ++ js "/" ++ Number_toString (engine env) (Int id);
          headers := [(js "Content-Type", js "application/json")];
          body := Some (JObj [(js "title", JStr (trim (Books.updateTitle doc)));
                              (js "author", JStr (trim (Books.updateAuthor doc)))]) |} in
     exists rest,
       emitted (Books.updateBook env past doc)
       = EFetch req (fetch_answer env past req) :: rest).
Proof.
  split; [|split; [|split]].
  - intros doc H.
    pose proof (users_mutate_run Update env past doc) as R.
    cbv zeta in R. cbn [Users.mutate Books.mutate] in R.
    apply R. cbn [Users.valid]. apply andb_false_iff.
    destruct H as [H|[H|H]].
    + left. apply Number_falsy_spec. now left.
    + left. apply Number_falsy_spec. now right.
    + right. now apply nonempty_false.
  - intros doc id Hid Hnz Hname req.
    pose proof (users_mutate_run Update env past doc) as R.
    cbv zeta in R. cbn [Users.mutate Books.mutate] in R.
    destruct R as (_ & _ & _ & R & _).
    destruct R as [rest R]; [|reflexivity|].
    { cbn [Users.valid]. apply andb_true_iff. split.
      - apply Number_truthy_spec. now exists id.
      - now apply nonempty_true. }
    exists rest. rewrite R. unfold Users.answer, Users.prologue, Users.request.
    cbn [Users.question app]. rewrite app_nil_r, Hid. reflexivity.
  - intros doc H.
    pose proof (books_mutate_run Update env past doc) as R.
    cbv zeta in R. cbn [Users.mutate Books.mutate] in R.
    apply R. cbn [Books.valid]. rewrite !andb_false_iff.
    destruct H as [H|[H|[H|H]]].
    + left. left. apply Number_falsy_spec. now left.
    + left. left. apply Number_falsy_spec. now right.
    + left. right. now apply nonempty_false.
    + right. now apply nonempty_false.
  - intros doc id Hid Hnz Htitle Hauthor req.
    pose proof (books_mutate_run Update env past doc) as R.
    cbv zeta in R. cbn [Users.mutate Books.mutate] in R.
    destruct R as (_ & _ & _ & R & _).
    destruct R as [rest R]; [|reflexivity|].
    { cbn [Books.valid]. rewrite !andb_true_iff. repeat split.
      - apply Number_truthy_spec. now exists id.
      - now apply nonempty_true.
      - now apply nonempty_true. }
    exists rest. rewrite R. unfold Books.answer, Books.prologue, Books.request.
    cbn [Books.question app]. rewrite app_nil_r, Hid. reflexivity.
Qed.

Lemma update_validates_before_put_witness :
  Users.updateUser (scripted [] true) []
    (Users.set_updateId (js "0x0") users_page)
  = mkRun (Returned tt) (Users.set_updateId (js "0x0") users_page)
      [EAlert (js "Please enter both User ID and new name")] /\
  (exists rest,
     emitted (Users.updateUser (scripted [] true) [] users_page)
     = EFetch {| method := PUT; url := js "/api/users/1";
                 headers := [(js "Content-Type", js "application/json")];
                 body := Some (JObj [(js "name", JStr (js "Anna"))]) |}
         offline :: rest) /\
  Books.updateBook (scripted [] true) []
    (Books.set_updateId (js "five") books_page)
  = mkRun (Returned tt) (Books.set_updateId (js "five") books_page)
      [EAlert (js "Please enter the Book ID, new title, and new author")] /\
  (exists rest,
     emitted (Books.updateBook (scripted [] true) [] books_page)
     = EFetch {| method := PUT; url := js "/api/books/5";
                 headers := [(js "Content-Type", js "application/json")];
                 body := Some (JObj [(js "title", JStr (js "Dune Messiah"));
                                     (js "author", JStr (js "Frank Herbert"))]) |}
         offline :: rest).
Proof.
  pose proof (update_validates_before_put (scripted [] true) [])
    as (U1 & U2 & B1 & B2).
  split; [|split; [|split]].
  - apply U1. right. left. reflexivity.
  - apply (U2 users_page 1%Z); [reflexivity|discriminate|discriminate].
  - apply B1. left. reflexivity.
  - apply (B2 books_page 5%Z);
      [reflexivity|discriminate|discriminate|discriminate].
Defined.

(** C9: the inputs are cleared only on success: a create, update or
    delete handler whose request succeeds (a 2xx answer, with a body
    that parses where the handler reads it) leaves its own inputs empty
    and every other input as it was; one whose validation fails, whose
    confirmation is declined or whose request fails (network failure,
    non-2xx, unparseable body) leaves the whole document as it was. *)
Theorem inputs_cleared_exactly_on_success
  (m : Mutation) (env : Env) (past : list Event) :
  (forall doc,
     (Users.succeeds env past m doc = true ->
      Users.same_inputs (document (Users.mutate m env past doc))
        (Users.cleared m doc)) /\
     (Users.succeeds env past m doc = false ->
      document (Users.mutate m env past doc) = doc)) /\
  (forall doc,
     (Books.succeeds env past m doc = true ->
      Books.same_inputs (document (Books.mutate m env past doc))
        (Books.cleared m doc)) /\
     (Books.succeeds env past m doc = false ->
      document (Books.mutate m env past doc) = doc)).
Proof.
  split; intros doc.
  - pose proof (users_mutate_run m env past doc) as R.
    cbv zeta in R. cbn [Users.mutate Books.mutate] in R.
    destruct R as (_ & _ & _ & _ & Hs & Hf). split; intros H.
    + apply reloads_once_elim in Hs; [|exact H].
      destruct Hs as (before & afterwards & _ & _ & _ & ->).
      match goal with
      | |- context [Users.loadUsers env ?p ?d] =>
          destruct (users_load_document env p d) as [rows ->]
      end.
      apply users_same_inputs_set.
    + now apply Hf.
  - pose proof (books_mutate_run m env past doc) as R.
    cbv zeta in R. cbn [Users.mutate Books.mutate] in R.
    destruct R as (_ & _ & _ & _ & Hs & Hf). split; intros H.
    + apply reloads_once_elim in Hs; [|exact H].
      destruct Hs as (before & afterwards & _ & _ & _ & ->).
      match goal with
      | |- context [Books.loadBooks env ?p ?d] =>
          destruct (books_load_document env p d) as [rows ->]
      end.
      apply books_same_inputs_set.
    + now apply Hf.
Qed.

Lemma inputs_cleared_exactly_on_success_witness :
  Users.same_inputs
    (document (Users.mutate Update
                 (scripted [respond 200 ann; respond 200 (JArr [ann])] true)
                 [] users_page))
    (Users.cleared Update users_page) /\
  document (Users.mutate Update (scripted [respond 404 JNull] true) []
              users_page) = users_page /\
  Books.same_inputs
    (document (Books.mutate Create
                 (scripted [respond 201 dune; respond 200 (JArr [dune])] true)
                 [] books_page))
    (Books.cleared Create books_page) /\
  document (Books.mutate Create (scripted [] true) [] books_page) = books_page.
Proof.
  split; [|split; [|split]].
  - apply (proj1 (inputs_cleared_exactly_on_success Update
                    (scripted [respond 200 ann; respond 200 (JArr [ann])] true)
                    [])).
    reflexivity.
  - apply (proj1 (inputs_cleared_exactly_on_success Update
                    (scripted [respond 404 JNull] true) [])).
    reflexivity.
  - apply (proj2 (inputs_cleared_exactly_on_success Create
                    (scripted [respond 201 dune; respond 200 (JArr [dune])] true)
                    [])).
    reflexivity.
  - apply (proj2 (inputs_cleared_exactly_on_success Create
                    (scripted [] true) [])).
    reflexivity.
Defined.

(** C10: when the user declines the confirmation of a delete handler
    ([deleteUser] once its identifier has validated, and
    [deleteHighestBook]), the handler returns at once: it sends no
    request and leaves the table body and every input as they were. *)
Theorem declined_delete_does_nothing (env : Env) (past : list Event) :
  (forall doc id,
     parseInt (Users.deleteId doc) = Int id -> id <> 0%Z ->
     let question :=
       js "Are you sure you want to delete user ID "
         ++ Number_toString (engine env) (Int id) ++ js "?" in
     confirm_answer env past question = false ->
     Users.deleteUser env past doc
     = mkRun (Returned tt) doc [EConfirm question false]) /\
  (forall doc,
     let question :=
       js "Are you sure you want to delete the book with the highest ID?" in
     confirm_answer env past question = false ->
     Books.deleteHighestBook env past doc
     = mkRun (Returned tt) doc [EConfirm question false]).
Proof.
  split.
  - intros doc id Hid Hnz question Hno.
    pose proof (users_mutate_run Delete env past doc) as R.
    cbv zeta in R. cbn [Users.mutate Books.mutate] in R.
    destruct R as (_ & _ & R & _). rewrite R.
    + unfold Users.prologue. cbn [Users.question]. rewrite Hid.
      fold question. now rewrite Hno.
    + cbn [Users.valid]. apply Number_truthy_spec. now exists id.
    + unfold Users.confirmed. cbn [Users.question]. now rewrite Hid.
  - intros doc question Hno.
    pose proof (books_mutate_run Delete env past doc) as R.
    cbv zeta in R. cbn [Users.mutate Books.mutate] in R.
    destruct R as (_ & _ & R & _). rewrite R.
    + unfold Books.prologue. cbn [Books.question]. fold question.
      now rewrite Hno.
    + reflexivity.
    + unfold Books.confirmed. now cbn [Books.question].
Qed.

Lemma declined_delete_does_nothing_witness :
  Users.deleteUser (scripted [] false) [] users_page
  = mkRun (Returned tt) users_page
      [EConfirm (js "Are you sure you want to delete user ID 1?") false] /\
  Books.deleteHighestBook (scripted [] false) [] books_page
  = mkRun (Returned tt) books_page
      [EConfirm
         (js "Are you sure you want to delete the book with the highest ID?")
         false].
Proof.
  split.
  - apply (proj1 (declined_delete_does_nothing (scripted [] false) [])
             users_page 1%Z); [reflexivity|discriminate|reflexivity].
  - apply (proj2 (declined_delete_does_nothing (scripted [] false) [])
             books_page). reflexivity.
Defined.

(* ================================================================== *)
(** * Further facts *)

(** No handler ends with an uncaught error. *)
Lemma users_handle_returns h env past doc :
  outcome (Users.handle h env past doc) = Returned tt.
Proof.
  destruct h as [|m]; cbn [Users.handle]; [apply users_load_outcome|].
  pose proof (users_mutate_run m env past doc) as R. cbv zeta in R.
  apply R.
Qed.

Lemma books_handle_returns h env past doc :
  outcome (Books.handle h env past doc) = Returned tt.
Proof.
  destruct h as [|m| |]; cbn [Books.handle].
  - apply books_load_outcome.
  - pose proof (books_mutate_run m env past doc) as R. cbv zeta in R.
    apply R.
  - pose proof (books_search_run env past doc) as H. cbv zeta in H.
    destruct H as (Hempty & Hbad & Hgood).
    destruct (trim (Books.searchInput doc)) as [|c q] eqn:Hq.
    { now rewrite (Hempty eq_refl). }
    destruct (encodeURIComponent (c :: q)) as [encoded|] eqn:Henc.
    2:{ now rewrite (Hbad ltac:(discriminate) eq_refl). }
    destruct (Hgood encoded ltac:(discriminate) eq_refl)
      as [(_ & e & ->)|(r & v & rows & o & _ & _ & _ & _ & ->)];
      reflexivity.
  - rewrite books_clearSearch_run. apply books_load_outcome.
Qed.

(** Filling an input never touches the table. *)
Lemma users_fill_table i text doc :
  Users.userTableBody (Users.fill i text doc) = Users.userTableBody doc.
Proof. now destruct i. Qed.

Lemma books_fill_table i text doc :
  Books.bookTableBody (Books.fill i text doc) = Books.bookTableBody doc.
Proof. now destruct i. Qed.

(** The example of the specification: a POST of Dune by Herbert that is
    answered with the new record is followed by a GET of the collection
    endpoint and by an alert naming the title and the author. *)
Example create_dune :
  Books.createBook
    (scripted [respond 201 dune; respond 200 (JArr [dune])] true) []
    books_page
  = mkRun (Returned tt)
      (Books.set_bookTableBody
         [Books.book_row sample_engine (5%Z, js "Dune", js "Herbert")]
         (Books.cleared Create books_page))
      [EFetch (Books.request sample_engine Create books_page)
         (respond 201 dune);
       EConsole level_log [LStr (js "Created book:"); LJson dune];
       EFetch (get_request Books.API_URL) (respond 200 (JArr [dune]));
       EAlert (js "Book " ++ dquote ++ js "Dune" ++ dquote
                 ++ js " by Herbert added!")].
Proof. reflexivity. Qed.

(** A list that parses but holds something other than records: the
    renderer has cleared the table and appended the rows before the
    element it cannot read, and the loader reports the failure. *)
Remark load_of_broken_list :
  Users.loadUsers (scripted [respond 200 (JArr [ann; JNull])] true) []
    users_page
  = mkRun (Returned tt)
      (Users.set_userTableBody
         [Users.user_row sample_engine (1%Z, js "Ann")] users_page)
      [EFetch (get_request Users.API_URL) (respond 200 (JArr [ann; JNull]));
       EConsole level_error
         [LStr (js "Error loading users:");
          LErr {| error_name := js "TypeError";
                  message :=
                    js "Cannot read properties of null (reading 'id')" |}];
       EAlert (js "Failed to load users")].
Proof. reflexivity. Qed.

(** A create answered 2xx with a body that is not a record: the request
    has succeeded, so the input is cleared and the list reloaded, and
    only then does building the success message throw. *)
Remark create_answered_with_null :
  Users.createUser
    (scripted [respond 201 JNull; respond 200 (JArr [ann])] true) []
    users_page
  = mkRun (Returned tt)
      (Users.set_userTableBody
         [Users.user_row sample_engine (1%Z, js "Ann")]
         (Users.set_createName [] users_page))
      [EFetch (Users.request sample_engine Create users_page)
         (respond 201 JNull);
       EConsole level_log [LStr (js "Created user:"); LJson JNull];
       EFetch (get_request Users.API_URL) (respond 200 (JArr [ann]));
       EConsole level_error
         [LStr (js "Error creating user:");
          LErr {| error_name := js "TypeError";
                  message :=
                    js "Cannot read properties of null (reading 'name')" |}];
       EAlert (js "Failed to create user: Cannot read properties of null (reading 'name')")].
Proof. reflexivity. Qed.

(** Some values of the string functions. *)
Example trim_example : trim (js "  Dune & co  ") = js "Dune & co".
Proof. reflexivity. Qed.

Example parseInt_examples :
  parseInt (js " 42px") = Int 42 /\ parseInt (js "-0x1F") = Int (-31) /\
  parseInt (js "abc") = NaN /\ parseInt (js "") = NaN /\
  parseInt (js "0") = Int 0.
Proof. repeat split; reflexivity. Qed.

Example encodeURIComponent_examples :
  encodeURIComponent (js "Dune & co") = Some (js "Dune%20%26%20co") /\
  encodeURIComponent [0xE9%N] = Some (js "%C3%A9") /\
  encodeURIComponent [0xD83D%N; 0xDE00%N] = Some (js "%F0%9F%98%80") /\
  encodeURIComponent [0xDE00%N; 0xD83D%N] = None.
Proof. repeat split; reflexivity. Qed.

(* ================================================================== *)
(** * More about the handlers *)

Unset Implicit Arguments.

Lemma or_else_some a b : exists v, or_else a b = Some v.
Proof.
  unfold or_else. destruct (ToBoolean a) eqn:E; [|eauto].
  destruct a; [eauto|discriminate].
Qed.

Ltac or_else_none :=
  match goal with
  | H : or_else ?a ?b = None |- _ =>
      destruct (or_else_some a b); congruence
  end.

(** Leaves where both sides went through the same case analysis under
    different names: identify what the equations identify. *)
Ltac close_by_equations :=
  repeat match goal with
  | H : Responded _ = Responded _ |- _ => injection H as ->
  | H : inl _ = inl _ |- _ => injection H as ->
  | H : inr _ = inr _ |- _ => injection H as ->
  | H : Some _ = Some _ |- _ => injection H as ->
  | H1 : ?x = _, H2 : ?x = _ |- _ => rewrite H1 in H2
  | H1 : ?x = _, H2 : context [?x] |- _ => progress rewrite H1 in H2
  end;
  try discriminate; try reflexivity.

(** The run of a handler whose request is answered with a status that
    is not 2xx. *)
Lemma users_mutate_rejected m env past doc r :
  Users.valid m doc = true -> Users.confirmed env past m doc = true ->
  Users.answer env past m doc = Responded r -> ok r = false ->
  let e := thrown_on_rejection (engine env) (users_fallback m) r in
  Users.mutate m env past doc
  = mkRun (Returned tt) doc
      (Users.prologue env past m doc
         ++ [EFetch (Users.request (engine env) m doc) (Responded r);
             EConsole level_error [LStr (users_catch_label m); LErr e];
             EAlert (users_fallback m ++ js ": " ++ message e)]).
Proof.
  destruct m; unfold_users;
    unfold thrown_on_rejection, users_fallback, users_catch_label,
      Users.createUser, Users.updateUser, Users.deleteUser;
    unfold_monad; exec; intros; try discriminate; try congruence;
    try or_else_none.
  all: close_by_equations.
Qed.

Lemma books_mutate_rejected m env past doc r :
  Books.valid m doc = true -> Books.confirmed env past m doc = true ->
  Books.answer env past m doc = Responded r -> ok r = false ->
  let e := thrown_on_rejection (engine env) (books_fallback m) r in
  Books.mutate m env past doc
  = mkRun (Returned tt) doc
      (Books.prologue env past m doc
         ++ [EFetch (Books.request (engine env) m doc) (Responded r);
             EConsole level_error [LStr (books_catch_label m); LErr e];
             EAlert (books_fallback m ++ js ": " ++ message e)]).
Proof.
  destruct m; unfold_books;
    unfold thrown_on_rejection, books_fallback, books_catch_label,
      Books.createBook, Books.updateBook, Books.deleteHighestBook;
    unfold_monad; exec; intros; try discriminate; try congruence;
    try or_else_none.
  all: close_by_equations.
Qed.

(* ================================================================== *)
(** * Further properties of the handlers *)

(** X1: the listener for DOMContentLoaded behaves exactly as one run of
    the loader: it sends the one GET of the collection endpoint, and
    dropping the loader's promise hides no error, because the loader
    never rejects. *)
Theorem page_load_runs_the_loader (env : Env) (past : list Event) :
  (forall doc,
     users_DOMContentLoaded env past doc = Users.loadUsers env past doc /\
     requests (emitted (users_DOMContentLoaded env past doc))
     = [get_request Users.API_URL]) /\
  (forall doc,
     books_DOMContentLoaded env past doc = Books.loadBooks env past doc /\
     requests (emitted (books_DOMContentLoaded env past doc))
     = [get_request Books.API_URL]).
Proof.
  split; intros doc.
  - assert (E : users_DOMContentLoaded env past doc
                = Users.loadUsers env past doc).
    { unfold users_DOMContentLoaded, detached.
      pose proof (users_load_outcome env past doc) as H.
      destruct (Users.loadUsers env past doc) as [o d evs].
      cbn in H. now rewrite H. }
    split; [exact E|]. rewrite E. apply users_load_requests.
  - assert (E : books_DOMContentLoaded env past doc
                = Books.loadBooks env past doc).
    { unfold books_DOMContentLoaded, detached.
      pose proof (books_load_outcome env past doc) as H.
      destruct (Books.loadBooks env past doc) as [o d evs].
      cbn in H. now rewrite H. }
    split; [exact E|]. rewrite E. apply books_load_requests.
Qed.

(** X2: a loader whose request is answered 2xx with an array of records
    puts exactly the rows of these records in the table and does
    nothing else: no alert and nothing on the console. *)
Theorem successful_load_renders_silently (env : Env) (past : list Event) :
  (forall doc r users recs,
     fetch_answer env past (get_request Users.API_URL) = Responded r ->
     ok r = true -> json r = inr (JArr users) ->
     map Users.as_user users = map Some recs ->
     Users.loadUsers env past doc
     = mkRun (Returned tt)
         (Users.set_userTableBody (map (Users.user_row (engine env)) recs) doc)
         [EFetch (get_request Users.API_URL) (Responded r)]) /\
  (forall doc r books recs,
     fetch_answer env past (get_request Books.API_URL) = Responded r ->
     ok r = true -> json r = inr (JArr books) ->
     map Books.as_book books = map Some recs ->
     Books.loadBooks env past doc
     = mkRun (Returned tt)
         (Books.set_bookTableBody (map (Books.book_row (engine env)) recs) doc)
         [EFetch (get_request Books.API_URL) (Responded r)]).
Proof.
  split; intros doc r l recs Hres Hok Hjson Hrec.
  - destruct (users_load_run env past doc)
      as [(Hf & _)|(r' & v & rows & o & Hres' & _ & Hjson' & Hd & ->)].
    { rewrite Hres in Hf. unfold load_fails in Hf.
      rewrite Hok, Hjson in Hf. discriminate. }
    rewrite Hres in *. injection Hres' as <-.
    rewrite Hjson in Hjson'. injection Hjson' as <-.
    specialize (Hd past doc).
    rewrite (users_display_records env l recs Hrec) in Hd.
    now injection Hd as <- <-.
  - destruct (books_load_run env past doc)
      as [(Hf & _)|(r' & v & rows & o & Hres' & _ & Hjson' & Hd & ->)].
    { rewrite Hres in Hf. unfold load_fails in Hf.
      rewrite Hok, Hjson in Hf. discriminate. }
    rewrite Hres in *. injection Hres' as <-.
    rewrite Hjson in Hjson'. injection Hjson' as <-.
    specialize (Hd past doc).
    rewrite (books_display_records env l recs Hrec) in Hd.
    now injection Hd as <- <-.
Qed.

Lemma successful_load_renders_silently_witness :
  Users.loadUsers (scripted [respond 200 (JArr [ann])] true) [] users_page
  = mkRun (Returned tt)
      (Users.set_userTableBody
         (map (Users.user_row sample_engine) [(1%Z, js "Ann")]) users_page)
      [EFetch (get_request Users.API_URL) (respond 200 (JArr [ann]))] /\
  Books.loadBooks (scripted [respond 200 (JArr [])] true) [] books_page
  = mkRun (Returned tt)
      (Books.set_bookTableBody (map (Books.book_row sample_engine) [])
         books_page)
      [EFetch (get_request Books.API_URL) (respond 200 (JArr []))].
Proof.
  split.
  - apply (proj1 (successful_load_renders_silently
                    (scripted [respond 200 (JArr [ann])] true) [])
             users_page _ [ann] [(1%Z, js "Ann")]); reflexivity.
  - apply (proj2 (successful_load_renders_silently
                    (scripted [respond 200 (JArr [])] true) [])
             books_page _ [] []); reflexivity.
Defined.

(** The renderer on an array whose first element that is not a record
    is [null]: the rows before it are in the table when it throws. *)
Lemma users_display_until_null env users recs rest :
  map Users.as_user users = map Some recs ->
  forall past doc,
    Users.displayUsers (JArr (users ++ JNull :: rest)) env past doc
    = mkRun (Threw (fault_error (engine env) (NullProperty (js "id"))))
        (Users.set_userTableBody (map (Users.user_row (engine env)) recs) doc)
        [].
Proof.
  intros Hrec past doc.
  unfold Users.displayUsers, forEach.
  match goal with |- context [each _ ?f] => set (cb := f) end.
  assert (Hloop : forall l us, map Users.as_user l = map Some us ->
    forall past doc,
      each l cb env past doc
      = mkRun (Returned tt)
          (fold_left (fun d row => Users.appendChild row d)
             (map (Users.user_row (engine env)) us) doc) []).
  { clear. induction l as [|j l IH]; intros [|u us] Hl past doc;
      try discriminate; [reflexivity|].
    cbn in Hl. injection Hl as Hj Hl. cbn [each map fold_left].
    assert (Hcb : forall past doc,
      cb j env past doc
      = mkRun (Returned tt)
          (Users.appendChild (Users.user_row (engine env) u) doc) []).
    { intros past' doc'. destruct u as [id name].
      destruct j; try discriminate. unfold Users.as_user in Hj.
      destruct (own_property (js "id") members) as [[]|] eqn:Hid;
        try discriminate.
      destruct (own_property (js "name") members) as [[]|] eqn:Hname;
        try discriminate.
      injection Hj as <- <-. subst cb. unfold_monad. unfold Get.
      rewrite Hid, Hname. reflexivity. }
    unfold bind. rewrite Hcb. cbn. now rewrite (IH us Hl). }
  assert (Hsplit : forall l1 l2 past doc,
    each (l1 ++ l2) cb env past doc
    = (each l1 cb ;; each l2 cb) env past doc).
  { clear. induction l1 as [|x l1 IH]; intros l2 past doc.
    - cbn [app each]. unfold bind, ret, after. cbn.
      rewrite app_nil_r. now destruct (each l2 cb env past doc).
    - cbn [app each]. unfold bind in *.
      destruct (cb x env past doc) as [[[]|e] d evs]; [|reflexivity].
      rewrite IH.
      destruct (each l1 cb env (past ++ evs) d) as [[[]|e] d' evs'];
        cbn; [|reflexivity].
      rewrite <- app_assoc.
      destruct (each l2 cb env (past ++ evs ++ evs') d') as [o d'' evs''].
      cbn. now rewrite app_assoc. }
  unfold bind at 1, write at 1. cbn -[each]. rewrite Hsplit.
  unfold bind at 1. rewrite (Hloop users recs Hrec). cbn -[each].
  cbn [each]. subst cb. unfold_monad. cbn.
  now rewrite users_fold_appendChild.
Qed.

Lemma books_display_until_null env books recs rest :
  map Books.as_book books = map Some recs ->
  forall past doc,
    Books.displayBooks (JArr (books ++ JNull :: rest)) env past doc
    = mkRun (Threw (fault_error (engine env) (NullProperty (js "id"))))
        (Books.set_bookTableBody (map (Books.book_row (engine env)) recs) doc)
        [].
Proof.
  intros Hrec past doc.
  unfold Books.displayBooks, forEach.
  match goal with |- context [each _ ?f] => set (cb := f) end.
  assert (Hloop : forall l us, map Books.as_book l = map Some us ->
    forall past doc,
      each l cb env past doc
      = mkRun (Returned tt)
          (fold_left (fun d row => Books.appendChild row d)
             (map (Books.book_row (engine env)) us) doc) []).
  { clear. induction l as [|j l IH]; intros [|u us] Hl past doc;
      try discriminate; [reflexivity|].
    cbn in Hl. injection Hl as Hj Hl. cbn [each map fold_left].
    assert (Hcb : forall past doc,
      cb j env past doc
      = mkRun (Returned tt)
          (Books.appendChild (Books.book_row (engine env) u) doc) []).
    { intros past' doc'. destruct u as [[id title] author].
      destruct j; try discriminate. unfold Books.as_book in Hj.
      destruct (own_property (js "id") members) as [[]|] eqn:Hid;
        try discriminate.
      destruct (own_property (js "title") members) as [[]|] eqn:Htitle;
        try discriminate.
      destruct (own_property (js "author") members) as [[]|] eqn:Hauthor;
        try discriminate.
      injection Hj as <- <- <-. subst cb. unfold_monad. unfold Get.
      rewrite Hid, Htitle, Hauthor. reflexivity. }
    unfold bind. rewrite Hcb. cbn. now rewrite (IH us Hl). }
  assert (Hsplit : forall l1 l2 past doc,
    each (l1 ++ l2) cb env past doc
    = (each l1 cb ;; each l2 cb) env past doc).
  { clear. induction l1 as [|x l1 IH]; intros l2 past doc.
    - cbn [app each]. unfold bind, ret, after. cbn.
      rewrite app_nil_r. now destruct (each l2 cb env past doc).
    - cbn [app each]. unfold bind in *.
      destruct (cb x env past doc) as [[[]|e] d evs]; [|reflexivity].
      rewrite IH.
      destruct (each l1 cb env (past ++ evs) d) as [[[]|e] d' evs'];
        cbn; [|reflexivity].
      rewrite <- app_assoc.
      destruct (each l2 cb env (past ++ evs ++ evs') d') as [o d'' evs''].
      cbn. now rewrite app_assoc. }
  unfold bind at 1, write at 1. cbn -[each]. rewrite Hsplit.
  unfold bind at 1. rewrite (Hloop books recs Hrec). cbn -[each].
  cbn [each]. subst cb. unfold_monad. cbn.
  now rewrite books_fold_appendChild.
Qed.

(** X3: a loader answered 2xx with JSON that is not an array has
    already emptied the table when the renderer fails: the old rows are
    gone, a TypeError is logged and the load failure is alerted. *)
Theorem load_of_non_array_empties_table (env : Env) (past : list Event) :
  (forall doc r v,
     fetch_answer env past (get_request Users.API_URL) = Responded r ->
     ok r = true -> json r = inr v -> (forall l, v <> JArr l) ->
     exists e,
       error_name e = js "TypeError" /\
       Users.loadUsers env past doc
       = mkRun (Returned tt) (Users.set_userTableBody [] doc)
           [EFetch (get_request Users.API_URL) (Responded r);
            EConsole level_error [LStr (js "Error loading users:"); LErr e];
            EAlert (js "Failed to load users")]) /\
  (forall doc r v,
     fetch_answer env past (get_request Books.API_URL) = Responded r ->
     ok r = true -> json r = inr v -> (forall l, v <> JArr l) ->
     exists e,
       error_name e = js "TypeError" /\
       Books.loadBooks env past doc
       = mkRun (Returned tt) (Books.set_bookTableBody [] doc)
           [EFetch (get_request Books.API_URL) (Responded r);
            EConsole level_error [LStr (js "Error loading books:"); LErr e];
            EAlert (js "Failed to load books")]).
Proof.
  split; intros doc r v Hres Hok Hjson Hv.
  - destruct (users_load_run env past doc)
      as [(Hf & _)|(r' & v' & rows & o & Hres' & _ & Hjson' & Hd & ->)].
    { rewrite Hres in Hf. unfold load_fails in Hf.
      rewrite Hok, Hjson in Hf. discriminate. }
    rewrite Hres in *. injection Hres' as <-.
    rewrite Hjson in Hjson'. injection Hjson' as <-.
    specialize (Hd past doc). unfold Users.displayUsers, forEach in Hd.
    destruct v; try (now elim (Hv elements));
      unfold_monad; cbn in Hd; injection Hd as <- <-;
      (eexists; split; [|reflexivity]; reflexivity).
  - destruct (books_load_run env past doc)
      as [(Hf & _)|(r' & v' & rows & o & Hres' & _ & Hjson' & Hd & ->)].
    { rewrite Hres in Hf. unfold load_fails in Hf.
      rewrite Hok, Hjson in Hf. discriminate. }
    rewrite Hres in *. injection Hres' as <-.
    rewrite Hjson in Hjson'. injection Hjson' as <-.
    specialize (Hd past doc). unfold Books.displayBooks, forEach in Hd.
    destruct v; try (now elim (Hv elements));
      unfold_monad; cbn in Hd; injection Hd as <- <-;
      (eexists; split; [|reflexivity]; reflexivity).
Qed.

Lemma load_of_non_array_empties_table_witness :
  (exists e,
     error_name e = js "TypeError" /\
     Users.loadUsers (scripted [respond 200 ann] true) [] users_page
     = mkRun (Returned tt) (Users.set_userTableBody [] users_page)
         [EFetch (get_request Users.API_URL) (respond 200 ann);
          EConsole level_error [LStr (js "Error loading users:"); LErr e];
          EAlert (js "Failed to load users")]) /\
  (exists e,
     error_name e = js "TypeError" /\
     Books.loadBooks (scripted [respond 200 JNull] true) []
       (Books.set_bookTableBody [{| innerHTML := js "old" |}] books_page)
     = mkRun (Returned tt)
         (Books.set_bookTableBody []
            (Books.set_bookTableBody [{| innerHTML := js "old" |}] books_page))
         [EFetch (get_request Books.API_URL) (respond 200 JNull);
          EConsole level_error [LStr (js "Error loading books:"); LErr e];
          EAlert (js "Failed to load books")]).
Proof.
  split.
  - apply (proj1 (load_of_non_array_empties_table
                    (scripted [respond 200 ann] true) [])
             users_page _ ann); try reflexivity. discriminate.
  - apply (proj2 (load_of_non_array_empties_table
                    (scripted [respond 200 JNull] true) [])
             _ _ JNull); try reflexivity. discriminate.
Defined.

(** X4: a loader answered 2xx with an array that holds [null] after some
    records leaves the table half filled: the rows of the records before
    the [null] are shown, the rest of the array is dropped, and the load
    failure is alerted. *)
Theorem load_keeps_rows_before_null (env : Env) (past : list Event) :
  (forall doc r users recs rest,
     fetch_answer env past (get_request Users.API_URL) = Responded r ->
     ok r = true -> json r = inr (JArr (users ++ JNull :: rest)) ->
     map Users.as_user users = map Some recs ->
     Users.loadUsers env past doc
     = mkRun (Returned tt)
         (Users.set_userTableBody (map (Users.user_row (engine env)) recs) doc)
         [EFetch (get_request Users.API_URL) (Responded r);
          EConsole level_error
            [LStr (js "Error loading users:");
             LErr (fault_error (engine env) (NullProperty (js "id")))];
          EAlert (js "Failed to load users")]) /\
  (forall doc r books recs rest,
     fetch_answer env past (get_request Books.API_URL) = Responded r ->
     ok r = true -> json r = inr (JArr (books ++ JNull :: rest)) ->
     map Books.as_book books = map Some recs ->
     Books.loadBooks env past doc
     = mkRun (Returned tt)
         (Books.set_bookTableBody (map (Books.book_row (engine env)) recs) doc)
         [EFetch (get_request Books.API_URL) (Responded r);
          EConsole level_error
            [LStr (js "Error loading books:");
             LErr (fault_error (engine env) (NullProperty (js "id")))];
          EAlert (js "Failed to load books")]).
Proof.
  split; intros doc r l recs rest Hres Hok Hjson Hrec.
  - destruct (users_load_run env past doc)
      as [(Hf & _)|(r' & v' & rows & o & Hres' & _ & Hjson' & Hd & ->)].
    { rewrite Hres in Hf. unfold load_fails in Hf.
      rewrite Hok, Hjson in Hf. discriminate. }
    rewrite Hres in *. injection Hres' as <-.
    rewrite Hjson in Hjson'. injection Hjson' as <-.
    specialize (Hd past doc).
    rewrite (users_display_until_null env l recs rest Hrec) in Hd.
    now injection Hd as <- <-.
  - destruct (books_load_run env past doc)
      as [(Hf & _)|(r' & v' & rows & o & Hres' & _ & Hjson' & Hd & ->)].
    { rewrite Hres in Hf. unfold load_fails in Hf.
      rewrite Hok, Hjson in Hf. discriminate. }
    rewrite Hres in *. injection Hres' as <-.
    rewrite Hjson in Hjson'. injection Hjson' as <-.
    specialize (Hd past doc).
    rewrite (books_display_until_null env l recs rest Hrec) in Hd.
    now injection Hd as <- <-.
Qed.

Lemma load_keeps_rows_before_null_witness :
  Users.loadUsers (scripted [respond 200 (JArr [ann; JNull; ann])] true) []
    users_page
  = mkRun (Returned tt)
      (Users.set_userTableBody
         (map (Users.user_row sample_engine) [(1%Z, js "Ann")]) users_page)
      [EFetch (get_request Users.API_URL)
         (respond 200 (JArr [ann; JNull; ann]));
       EConsole level_error
         [LStr (js "Error loading users:");
          LErr (fault_error sample_engine (NullProperty (js "id")))];
       EAlert (js "Failed to load users")] /\
  Books.loadBooks (scripted [respond 200 (JArr [JNull])] true) [] books_page
  = mkRun (Returned tt)
      (Books.set_bookTableBody (map (Books.book_row sample_engine) [])
         books_page)
      [EFetch (get_request Books.API_URL) (respond 200 (JArr [JNull]));
       EConsole level_error
         [LStr (js "Error loading books:");
          LErr (fault_error sample_engine (NullProperty (js "id")))];
       EAlert (js "Failed to load books")].
Proof.
  split.
  - apply (proj1 (load_keeps_rows_before_null
                    (scripted [respond 200 (JArr [ann; JNull; ann])] true) [])
             users_page _ [ann] [(1%Z, js "Ann")] [ann]); reflexivity.
  - apply (proj2 (load_keeps_rows_before_null
                    (scripted [respond 200 (JArr [JNull])] true) [])
             books_page _ [] [] []); reflexivity.
Defined.

(** X5: when the request of a create, update or delete handler is
    answered with a status that is not 2xx and a JSON object, the alert
    shows the object's [detail] if that is a non-empty string and the
    handler's own fallback text if the object has no [detail]; the
    error is logged and the document is left as it was. *)
Theorem rejected_request_alerts_detail
  (m : Mutation) (env : Env) (past : list Event) :
  (forall doc r members text,
     Users.valid m doc = true -> Users.confirmed env past m doc = true ->
     Users.answer env past m doc = Responded r -> ok r = false ->
     json r = inr (JObj members) ->
     own_property (js "detail") members = Some (JStr text) /\ text <> [] \/
     own_property (js "detail") members = None /\ text = users_fallback m ->
     Users.mutate m env past doc
     = mkRun (Returned tt) doc
         (Users.prologue env past m doc
            ++ [EFetch (Users.request (engine env) m doc) (Responded r);
                EConsole level_error
                  [LStr (users_catch_label m); LErr (Error text)];
                EAlert (users_fallback m ++ js ": " ++ text)])) /\
  (forall doc r members text,
     Books.valid m doc = true -> Books.confirmed env past m doc = true ->
     Books.answer env past m doc = Responded r -> ok r = false ->
     json r = inr (JObj members) ->
     own_property (js "detail") members = Some (JStr text) /\ text <> [] \/
     own_property (js "detail") members = None /\ text = books_fallback m ->
     Books.mutate m env past doc
     = mkRun (Returned tt) doc
         (Books.prologue env past m doc
            ++ [EFetch (Books.request (engine env) m doc) (Responded r);
                EConsole level_error
                  [LStr (books_catch_label m); LErr (Error text)];
                EAlert (books_fallback m ++ js ": " ++ text)])).
Proof.
  split; intros doc r members text Hv Hc Ha Hok Hjson Hdetail.
  - rewrite (@users_mutate_rejected m env past doc r Hv Hc Ha Hok).
    unfold thrown_on_rejection, Get. rewrite Hjson.
    destruct Hdetail as [[-> Htext]|[-> ->]].
    + unfold or_else, ToBoolean. apply nonempty_true in Htext.
      now rewrite Htext.
    + reflexivity.
  - rewrite (@books_mutate_rejected m env past doc r Hv Hc Ha Hok).
    unfold thrown_on_rejection, Get. rewrite Hjson.
    destruct Hdetail as [[-> Htext]|[-> ->]].
    + unfold or_else, ToBoolean. apply nonempty_true in Htext.
      now rewrite Htext.
    + reflexivity.
Qed.

Lemma rejected_request_alerts_detail_witness :
  Users.mutate Update (refusing 404 (js "User not found")) [] users_page
  = mkRun (Returned tt) users_page
      [EFetch (Users.request sample_engine Update users_page)
         (respond 404 (JObj [(js "detail", JStr (js "User not found"))]));
       EConsole level_error
         [LStr (js "Error updating user:");
          LErr (Error (js "User not found"))];
       EAlert (js "Failed to update user: User not found")] /\
  Books.mutate Delete (scripted [respond 500 (JObj [])] true) [] books_page
  = mkRun (Returned tt) books_page
      [EConfirm
         (js "Are you sure you want to delete the book with the highest ID?")
         true;
       EFetch (Books.request sample_engine Delete books_page)
         (respond 500 (JObj []));
       EConsole level_error
         [LStr (js "Error deleting book:");
          LErr (Error (js "Failed to delete book"))];
       EAlert (js "Failed to delete book: Failed to delete book")].
Proof.
  split.
  - apply (proj1 (rejected_request_alerts_detail Update
                    (refusing 404 (js "User not found")) [])
             users_page _ [(js "detail", JStr (js "User not found"))]
             (js "User not found")); try reflexivity.
    left. split; [reflexivity|discriminate].
  - apply (proj2 (rejected_request_alerts_detail Delete
                    (scripted [respond 500 (JObj [])] true) [])
             books_page _ [] (js "Failed to delete book")); try reflexivity.
    right. split; reflexivity.
Defined.

(** X6: no handler of either client, and neither page-load listener,
    ends with an uncaught error: whatever the server answers and
    whatever the inputs hold, every error is caught inside the
    handler. *)
Theorem no_handler_throws (env : Env) (past : list Event) :
  (forall h doc, outcome (Users.handle h env past doc) = Returned tt) /\
  (forall h doc, outcome (Books.handle h env past doc) = Returned tt) /\
  (forall doc, outcome (users_DOMContentLoaded env past doc) = Returned tt) /\
  (forall doc, outcome (books_DOMContentLoaded env past doc) = Returned tt).
Proof.
  split; [|split; [|split]]; intros.
  - apply users_handle_returns.
  - apply books_handle_returns.
  - unfold users_DOMContentLoaded, detached.
    now destruct (Users.loadUsers env past doc).
  - unfold books_DOMContentLoaded, detached.
    now destruct (Books.loadBooks env past doc).
Qed.

Lemma users_mutate_requests m env past doc :
  requests (emitted (Users.mutate m env past doc))
  = if Users.succeeds env past m doc
    then [Users.request (engine env) m doc; get_request Users.API_URL]
    else if Users.valid m doc && Users.confirmed env past m doc
         then [Users.request (engine env) m doc] else [].
Proof.
  pose proof (users_mutate_run m env past doc) as R. cbv zeta in R.
  destruct R as (_ & _ & _ & _ & Hs & Hf).
  destruct (Users.succeeds env past m doc).
  - apply reloads_once_elim in Hs; [|reflexivity].
    destruct Hs as (before & afterwards & -> & Hb & Ha & _).
    rewrite !requests_app, users_prologue_requests, Hb, Ha,
      users_load_requests. reflexivity.
  - now apply Hf.
Qed.

Lemma books_mutate_requests m env past doc :
  requests (emitted (Books.mutate m env past doc))
  = if Books.succeeds env past m doc
    then [Books.request (engine env) m doc; get_request Books.API_URL]
    else if Books.valid m doc && Books.confirmed env past m doc
         then [Books.request (engine env) m doc] else [].
Proof.
  pose proof (books_mutate_run m env past doc) as R. cbv zeta in R.
  destruct R as (_ & _ & _ & _ & Hs & Hf).
  destruct (Books.succeeds env past m doc).
  - apply reloads_once_elim in Hs; [|reflexivity].
    destruct Hs as (before & afterwards & -> & Hb & Ha & _).
    rewrite !requests_app, books_prologue_requests, Hb, Ha,
      books_load_requests. reflexivity.
  - now apply Hf.
Qed.

Lemma books_search_requests env past doc :
  requests (emitted (Books.searchBooks env past doc))
  = match trim (Books.searchInput doc) with
    | [] => []
    | query =>
        match encodeURIComponent query with
        | Some encoded => [Books.search_request encoded]
        | None => []
        end
    end.
Proof.
  pose proof (books_search_run env past doc) as H. cbv zeta in H.
  destruct H as (Hempty & Hbad & Hgood).
  destruct (trim (Books.searchInput doc)) as [|c q] eqn:Hq.
  { now rewrite (Hempty eq_refl). }
  destruct (encodeURIComponent (c :: q)) as [encoded|] eqn:Henc.
  2:{ now rewrite (Hbad ltac:(discriminate) eq_refl). }
  destruct (Hgood encoded ltac:(discriminate) eq_refl)
    as [(_ & e & ->)|(r & v & rows & o & _ & _ & _ & _ & ->)];
    [reflexivity|]. now destruct o.
Qed.

(** X7: the requests of one invocation, in full.  A loader and
    [clearSearch] send one GET of the collection endpoint; a search
    sends its one GET, or nothing when the query is empty or cannot be
    encoded; a create, update or delete handler sends nothing when
    validation fails or the user declines, its own request alone when
    that request fails, and its own request followed by one GET when it
    succeeds.  No request is ever sent twice: nothing is retried. *)
Theorem requests_of_an_invocation (env : Env) (past : list Event) :
  (forall h doc,
     requests (emitted (Users.handle h env past doc))
     = match h with
       | Users.LoadUsers => [get_request Users.API_URL]
       | Users.Mutate m =>
           if Users.succeeds env past m doc
           then [Users.request (engine env) m doc; get_request Users.API_URL]
           else if Users.valid m doc && Users.confirmed env past m doc
                then [Users.request (engine env) m doc] else []
       end) /\
  (forall h doc,
     requests (emitted (Books.handle h env past doc))
     = match h with
       | Books.LoadBooks | Books.ClearSearch => [get_request Books.API_URL]
       | Books.Mutate m =>
           if Books.succeeds env past m doc
           then [Books.request (engine env) m doc; get_request Books.API_URL]
           else if Books.valid m doc && Books.confirmed env past m doc
                then [Books.request (engine env) m doc] else []
       | Books.SearchBooks =>
           match trim (Books.searchInput doc) with
           | [] => []
           | query =>
               match encodeURIComponent query with
               | Some encoded => [Books.search_request encoded]
               | None => []
               end
           end
       end).
Proof.
  split; intros [] doc; cbn [Users.handle Books.handle].
  - apply users_load_requests.
  - apply users_mutate_requests.
  - apply books_load_requests.
  - apply books_mutate_requests.
  - apply books_search_requests.
  - rewrite books_clearSearch_run. apply books_load_requests.
Qed.

(** X8: a DELETE request is only ever sent right after the user has
    confirmed: in every invocation that sends one, the first event is a
    confirmation answered yes and the DELETE follows it at once. *)
Theorem delete_only_after_consent (env : Env) (past : list Event) :
  (forall h doc req,
     In req (requests (emitted (Users.handle h env past doc))) ->
     method req = DELETE ->
     exists question rest,
       emitted (Users.handle h env past doc)
       = EConfirm question true
           :: EFetch req (fetch_answer env (past ++ [EConfirm question true]) req)
           :: rest) /\
  (forall h doc req,
     In req (requests (emitted (Books.handle h env past doc))) ->
     method req = DELETE ->
     exists question rest,
       emitted (Books.handle h env past doc)
       = EConfirm question true
           :: EFetch req (fetch_answer env (past ++ [EConfirm question true]) req)
           :: rest).
Proof.
  split; intros h doc req Hin Hdel.
  - destruct h as [|m]; cbn [Users.handle] in *.
    { rewrite users_load_requests in Hin.
      destruct Hin as [<-|[]]. discriminate. }
    rewrite users_mutate_requests in Hin.
    assert (Hvc : Users.valid m doc && Users.confirmed env past m doc = true).
    { unfold Users.succeeds in Hin.
      destruct (Users.valid m doc && Users.confirmed env past m doc);
        [reflexivity|destruct Hin]. }
    assert (Hreq : req = Users.request (engine env) m doc).
    { destruct (Users.succeeds env past m doc); [|rewrite Hvc in Hin];
        cbn in Hin; intuition (subst; try reflexivity; discriminate). }
    apply andb_true_iff in Hvc as [Hv Hc].
    pose proof (users_mutate_run m env past doc) as R. cbv zeta in R.
    destruct R as (_ & _ & _ & R & _). destruct (R Hv Hc) as [rest ->].
    subst req. destruct m; try discriminate.
    unfold Users.answer, Users.prologue, Users.confirmed in *.
    cbn [Users.question] in *. rewrite Hc. cbn. eauto.
  - destruct h as [|m| |]; cbn [Books.handle] in *.
    { rewrite books_load_requests in Hin.
      destruct Hin as [<-|[]]. discriminate. }
    2:{ rewrite books_search_requests in Hin.
        destruct (trim (Books.searchInput doc)); [destruct Hin|].
        destruct (encodeURIComponent (c :: j)); [|destruct Hin].
        destruct Hin as [<-|[]]. discriminate. }
    2:{ rewrite books_clearSearch_run, books_load_requests in Hin.
        destruct Hin as [<-|[]]. discriminate. }
    rewrite books_mutate_requests in Hin.
    assert (Hvc : Books.valid m doc && Books.confirmed env past m doc = true).
    { unfold Books.succeeds in Hin.
      destruct (Books.valid m doc && Books.confirmed env past m doc);
        [reflexivity|destruct Hin]. }
    assert (Hreq : req = Books.request (engine env) m doc).
    { destruct (Books.succeeds env past m doc); [|rewrite Hvc in Hin];
        cbn in Hin; intuition (subst; try reflexivity; discriminate). }
    apply andb_true_iff in Hvc as [Hv Hc].
    pose proof (books_mutate_run m env past doc) as R. cbv zeta in R.
    destruct R as (_ & _ & _ & R & _). destruct (R Hv Hc) as [rest ->].
    subst req. destruct m; try discriminate.
    unfold Books.answer, Books.prologue, Books.confirmed in *.
    cbn [Books.question] in *. rewrite Hc. cbn. eauto.
Qed.

Lemma delete_only_after_consent_witness :
  exists question rest,
    emitted (Users.handle (Users.Mutate Delete) (scripted [] true) []
               users_page)
    = EConfirm question true
        :: EFetch (Users.request sample_engine Delete users_page)
             (fetch_answer (scripted [] true) ([] ++ [EConfirm question true])
                (Users.request sample_engine Delete users_page))
        :: rest.
Proof.
  apply (proj1 (delete_only_after_consent (scripted [] true) [])
           (Users.Mutate Delete) users_page).
  - left. reflexivity.
  - reflexivity.
Defined.

(** X9: when the request of a create, update or delete handler succeeds
    but the list cannot be fetched afterwards, the handler has cleared
    its inputs all the same, the table keeps the rows it had, and the
    loader's failure is alerted. *)
Theorem failed_reload_after_success
  (m : Mutation) (env : Env) (past : list Event) :
  (forall doc,
     Users.succeeds env past m doc = true ->
     (forall p, load_fails (fetch_answer env p (get_request Users.API_URL)) = true) ->
     document (Users.mutate m env past doc) = Users.cleared m doc /\
     In (EAlert (js "Failed to load users"))
        (emitted (Users.mutate m env past doc))) /\
  (forall doc,
     Books.succeeds env past m doc = true ->
     (forall p, load_fails (fetch_answer env p (get_request Books.API_URL)) = true) ->
     document (Books.mutate m env past doc) = Books.cleared m doc /\
     In (EAlert (js "Failed to load books"))
        (emitted (Books.mutate m env past doc))).
Proof.
  split; intros doc Hs Hfail.
  - pose proof (users_mutate_run m env past doc) as R. cbv zeta in R.
    destruct R as (_ & _ & _ & _ & R & _).
    apply reloads_once_elim in R; [|exact Hs].
    destruct R as (before & afterwards & -> & _ & _ & ->).
    match goal with
    | |- context [Users.loadUsers env ?p ?d] =>
        destruct (users_load_run env p d)
          as [(_ & e & ->)|(r & v & rows & o & Hres & Hok & Hjson & _)];
        [|specialize (Hfail p); rewrite Hres in Hfail;
          unfold load_fails in Hfail; rewrite Hok, Hjson in Hfail;
          discriminate]
    end.
    split; [reflexivity|]. rewrite !in_app_iff. right. right. left.
    cbn. auto.
  - pose proof (books_mutate_run m env past doc) as R. cbv zeta in R.
    destruct R as (_ & _ & _ & _ & R & _).
    apply reloads_once_elim in R; [|exact Hs].
    destruct R as (before & afterwards & -> & _ & _ & ->).
    match goal with
    | |- context [Books.loadBooks env ?p ?d] =>
        destruct (books_load_run env p d)
          as [(_ & e & ->)|(r & v & rows & o & Hres & Hok & Hjson & _)];
        [|specialize (Hfail p); rewrite Hres in Hfail;
          unfold load_fails in Hfail; rewrite Hok, Hjson in Hfail;
          discriminate]
    end.
    split; [reflexivity|]. rewrite !in_app_iff. right. right. left.
    cbn. auto.
Qed.

Lemma failed_reload_after_success_witness :
  (document (Users.mutate Create list_unavailable [] users_page)
   = Users.cleared Create users_page /\
   In (EAlert (js "Failed to load users"))
      (emitted (Users.mutate Create list_unavailable [] users_page))) /\
  (document (Books.mutate Delete list_unavailable [] books_page)
   = Books.cleared Delete books_page /\
   In (EAlert (js "Failed to load books"))
      (emitted (Books.mutate Delete list_unavailable [] books_page))).
Proof.
  split.
  - apply (proj1 (failed_reload_after_success Create list_unavailable [])
             users_page); [reflexivity|intros p; reflexivity].
  - apply (proj2 (failed_reload_after_success Delete list_unavailable [])
             books_page); [reflexivity|intros p; reflexivity].
Defined.

(** X10: loading and searching never touch an input: a loader and a
    search leave every input as it was, the search box included, for
    success and failure alike; [clearSearch] changes the search box and
    no other input. *)
Theorem load_and_search_keep_inputs (env : Env) (past : list Event) :
  (forall doc,
     Users.same_inputs (document (Users.loadUsers env past doc)) doc) /\
  (forall doc,
     Books.same_inputs (document (Books.loadBooks env past doc)) doc) /\
  (forall doc,
     Books.same_inputs (document (Books.searchBooks env past doc)) doc) /\
  (forall doc,
     Books.same_inputs (document (Books.clearSearch env past doc))
       (Books.set_searchInput [] doc)).
Proof.
  split; [|split; [|split]]; intros doc.
  - destruct (users_load_document env past doc) as [rows ->].
    apply users_same_inputs_set.
  - destruct (books_load_document env past doc) as [rows ->].
    apply books_same_inputs_set.
  - pose proof (books_search_run env past doc) as H. cbv zeta in H.
    destruct H as (Hempty & Hbad & Hgood).
    destruct (trim (Books.searchInput doc)) as [|c q] eqn:Hq.
    { rewrite (Hempty eq_refl). now repeat split. }
    destruct (encodeURIComponent (c :: q)) as [encoded|] eqn:Henc.
    2:{ rewrite (Hbad ltac:(discriminate) eq_refl). now repeat split. }
    destruct (Hgood encoded ltac:(discriminate) eq_refl)
      as [(_ & e & ->)|(r & v & rows & o & _ & _ & _ & _ & ->)].
    + now repeat split.
    + apply books_same_inputs_set.
  - rewrite books_clearSearch_run.
    destruct (books_load_document env past (Books.set_searchInput [] doc))
      as [rows ->].
    apply books_same_inputs_set.
Qed.

(** X11: every request of either client goes to its own collection
    endpoint or to a path or query below it: no handler ever addresses
    anything else. *)
Theorem requests_stay_on_the_endpoint (env : Env) (past : list Event) :
  (forall h doc req,
     In req (requests (emitted (Users.handle h env past doc))) ->
     exists suffix, url req = Users.API_URL ++ suffix) /\
  (forall h doc req,
     In req (requests (emitted (Books.handle h env past doc))) ->
     exists suffix, url req = Books.API_URL ++ suffix).
Proof.
  assert (Hu : forall eng m doc,
    exists suffix,
      url (Users.request eng m doc) = Users.API_URL ++ suffix).
  { intros eng [] doc; cbn; [exists []; now rewrite app_nil_r|eauto|eauto]. }
  assert (Hb : forall eng m doc,
    exists suffix,
      url (Books.request eng m doc) = Books.API_URL ++ suffix).
  { intros eng [] doc; cbn; [exists []; now rewrite app_nil_r|eauto|eauto]. }
  assert (Hgu : exists suffix,
    url (get_request Users.API_URL) = Users.API_URL ++ suffix).
  { exists []. cbn. now rewrite app_nil_r. }
  assert (Hgb : exists suffix,
    url (get_request Books.API_URL) = Books.API_URL ++ suffix).
  { exists []. cbn. now rewrite app_nil_r. }
  split; intros h doc req Hin.
  - destruct h as [|m]; cbn [Users.handle] in Hin.
    { rewrite users_load_requests in Hin. now destruct Hin as [<-|[]]. }
    rewrite users_mutate_requests in Hin.
    destruct (Users.succeeds env past m doc);
      [|destruct (Users.valid m doc && Users.confirmed env past m doc)];
      cbn in Hin; intuition (subst; auto).
  - destruct h as [|m| |]; cbn [Books.handle] in Hin.
    + rewrite books_load_requests in Hin. now destruct Hin as [<-|[]].
    + rewrite books_mutate_requests in Hin.
      destruct (Books.succeeds env past m doc);
        [|destruct (Books.valid m doc && Books.confirmed env past m doc)];
        cbn in Hin; intuition (subst; auto).
    + rewrite books_search_requests in Hin.
      destruct (trim (Books.searchInput doc)); [destruct Hin|].
      destruct (encodeURIComponent (c :: j)); [|destruct Hin].
      destruct Hin as [<-|[]]. cbn. eauto.
    + rewrite books_clearSearch_run, books_load_requests in Hin.
      now destruct Hin as [<-|[]].
Qed.

Lemma requests_stay_on_the_endpoint_witness :
  exists suffix,
    url (Users.request sample_engine Update users_page)
    = Users.API_URL ++ suffix.
Proof.
  apply (proj1 (requests_stay_on_the_endpoint (scripted [] true) [])
           (Users.Mutate Update) users_page).
  left. reflexivity.
Defined.

(* ================================================================== *)
(** * What the string functions do to the inputs *)

Lemma trimStart_nil_iff s :
  trimStart s = [] <-> forallb isStrWhiteSpaceChar s = true.
Proof.
  induction s as [|c s IH]; [now split|]. cbn [trimStart forallb].
  destruct (isStrWhiteSpaceChar c); cbn [andb]; [exact IH|].
  split; discriminate.
Qed.

Lemma trimStart_head s c rest :
  trimStart s = c :: rest -> isStrWhiteSpaceChar c = false.
Proof.
  induction s as [|c' s IH]; [discriminate|]. cbn [trimStart].
  destruct (isStrWhiteSpaceChar c') eqn:E; [exact IH|].
  now intros [= <- _].
Qed.

Lemma trimStart_split s :
  exists l, s = l ++ trimStart s /\ forallb isStrWhiteSpaceChar l = true.
Proof.
  induction s as [|c s (l & Hs & Hl)]; [now exists []|]. cbn [trimStart].
  destruct (isStrWhiteSpaceChar c) eqn:E.
  - exists (c :: l). cbn [app forallb]. rewrite E, Hl. now rewrite <- Hs.
  - now exists [].
Qed.

Lemma forallb_rev {A} (p : A -> bool) l :
  forallb p (rev l) = forallb p l.
Proof.
  induction l as [|x l IH]; [reflexivity|]. cbn [rev forallb].
  rewrite forallb_app, IH. cbn. now rewrite andb_true_r, andb_comm.
Qed.

Lemma trimEnd_split s :
  exists r, s = trimEnd s ++ r /\ forallb isStrWhiteSpaceChar r = true.
Proof.
  destruct (trimStart_split (rev s)) as (l & Hs & Hl).
  exists (rev l). unfold trimEnd. rewrite <- rev_app_distr, <- Hs, rev_involutive.
  now rewrite forallb_rev.
Qed.

Lemma trimEnd_last s init c :
  trimEnd s = init ++ [c] -> isStrWhiteSpaceChar c = false.
Proof.
  unfold trimEnd. intros H. apply (f_equal (@rev _)) in H.
  rewrite rev_involutive, rev_app_distr in H. cbn in H.
  now apply trimStart_head in H.
Qed.

(** [trim] takes whitespace off both ends and nothing else. *)
Lemma trim_split s :
  exists l r,
    s = l ++ trim s ++ r /\
    forallb isStrWhiteSpaceChar l = true /\
    forallb isStrWhiteSpaceChar r = true.
Proof.
  destruct (trimStart_split s) as (l & Hs & Hl).
  destruct (trimEnd_split (trimStart s)) as (r & Ht & Hr).
  exists l, r. unfold trim. now rewrite <- Ht.
Qed.

Lemma trim_head s c rest :
  trim s = c :: rest -> isStrWhiteSpaceChar c = false.
Proof.
  unfold trim. intros H.
  destruct (trimEnd_split (trimStart s)) as (r & Ht & _).
  rewrite H in Ht. cbn in Ht. now apply trimStart_head in Ht.
Qed.

Lemma trim_last s init c :
  trim s = init ++ [c] -> isStrWhiteSpaceChar c = false.
Proof. apply trimEnd_last. Qed.

(** A string is empty after trimming exactly when it is all
    whitespace. *)
Lemma trim_nil_iff s :
  trim s = [] <-> forallb isStrWhiteSpaceChar s = true.
Proof.
  split.
  - intros H. destruct (trim_split s) as (l & r & Hs & Hl & Hr).
    rewrite Hs, H, !forallb_app, Hl, Hr. reflexivity.
  - intros H. apply trimStart_nil_iff in H. unfold trim, trimEnd.
    now rewrite H.
Qed.

Lemma trim_forallb (p : code_unit -> bool) s :
  forallb p s = true -> forallb p (trim s) = true.
Proof.
  destruct (trim_split s) as (l & r & Hs & _). rewrite Hs at 1.
  rewrite !forallb_app, !andb_true_iff. tauto.
Qed.

(** ** Printing and parsing an identifier *)

Lemma decimal_pos_step fuel n acc :
  decimal_pos (S fuel) n acc
  = if (n <? 10)%N then (48 + n mod 10)%N :: acc
    else decimal_pos fuel (n / 10)%N ((48 + n mod 10)%N :: acc).
Proof. reflexivity. Qed.

Lemma decimal_pos_digits fuel : forall n acc,
  (n < 2 ^ N.of_nat (S fuel))%N ->
  exists ds,
    decimal_pos (S fuel) n acc = map (N.add 48) ds ++ acc /\
    ds <> [] /\ Forall (fun d => (d < 10)%N) ds /\
    forall a, fold_left (fun acc d => (acc * 10 + d)%N) ds a
              = (a * 10 ^ N.of_nat (List.length ds) + n)%N.
Proof.
  induction fuel as [|fuel IH]; intros n acc Hn.
  - assert (n < 10)%N by (cbn in Hn; lia).
    exists [n]. rewrite decimal_pos_step. apply N.ltb_lt in H as Hb. rewrite Hb.
    rewrite (N.mod_small n 10) by lia.
    split; [reflexivity|]. split; [discriminate|].
    split; [now repeat constructor|]. intros a. cbn. lia.
  - rewrite decimal_pos_step. destruct (n <? 10)%N eqn:Hb.
    + apply N.ltb_lt in Hb. exists [n].
      rewrite (N.mod_small n 10) by lia.
      split; [reflexivity|]. split; [discriminate|].
      split; [now repeat constructor|]. intros a. cbn. lia.
    + apply N.ltb_ge in Hb.
      destruct (IH (n / 10)%N ((48 + n mod 10)%N :: acc)) as (ds & Hd & Hne & Hall & Hval).
      { rewrite Nat2N.inj_succ, N.pow_succ_r' in Hn.
        apply N.Div0.div_lt_upper_bound. lia. }
      exists (ds ++ [(n mod 10)%N]).
      rewrite Hd, map_app, <- app_assoc. cbn [map app].
      split; [reflexivity|]. split; [|split].
      * now destruct ds.
      * apply Forall_app. split; [exact Hall|].
        constructor; [|constructor]. apply N.mod_lt. lia.
      * intros a. rewrite fold_left_app, Hval, length_app. cbn [fold_left List.length].
        rewrite Nat.add_1_r, Nat2N.inj_succ, N.pow_succ_r'.
        pose proof (N.div_mod n 10 ltac:(lia)). lia.
Qed.

Lemma small_digit d :
  (d < 10)%N ->
  d = 0%N \/ d = 1%N \/ d = 2%N \/ d = 3%N \/ d = 4%N \/
  d = 5%N \/ d = 6%N \/ d = 7%N \/ d = 8%N \/ d = 9%N.
Proof. lia. Qed.

Ltac each_digit H :=
  apply small_digit in H;
  destruct H as [->|[->|[->|[->|[->|[->|[->|[->|[->| ->]]]]]]]]].

Lemma digits_prefix_digits ds :
  Forall (fun d => (d < 10)%N) ds ->
  digits_prefix 10 (map (N.add 48) ds) = ds.
Proof.
  induction 1 as [|d ds Hd _ IH]; [reflexivity|].
  cbn [map digits_prefix]. rewrite IH. each_digit Hd; reflexivity.
Qed.

(** Parsing a string of decimal digits, with or without a minus sign. *)
Lemma parseInt_digits ds :
  ds <> [] -> Forall (fun d => (d < 10)%N) ds ->
  parseInt (map (N.add 48) ds) = Int (Z.of_N (digits_value 10 ds)) /\
  parseInt (45%N :: map (N.add 48) ds) = Int (- Z.of_N (digits_value 10 ds)).
Proof.
  intros Hne Hall. pose proof (@digits_prefix_digits ds Hall) as Hp.
  destruct ds as [|d ds]; [contradiction|]. clear Hne.
  inversion Hall as [|? ? Hd Hall']; subst.
  assert (Hgo : forall s,
    digits_prefix 10 s = d :: ds ->
    match digits_prefix 10 s with
    | [] => NaN
    | ds' => Int (1 * Z.of_N (digits_value 10 ds'))
    end = Int (Z.of_N (digits_value 10 (d :: ds))) /\
    match digits_prefix 10 s with
    | [] => NaN
    | ds' => Int (-1 * Z.of_N (digits_value 10 ds'))
    end = Int (- Z.of_N (digits_value 10 (d :: ds)))).
  { intros s ->. split; f_equal; lia. }
  specialize (Hgo _ Hp). revert Hgo. cbn [map].
  destruct ds as [|d2 ds].
  - each_digit Hd; intros [H1 H2]; (split; [exact H1|exact H2]).
  - inversion Hall' as [|? ? Hd2 _]; subst. cbn [map].
    each_digit Hd; try (intros [H1 H2]; (split; [exact H1|exact H2])).
    each_digit Hd2; intros [H1 H2]; (split; [exact H1|exact H2]).
Qed.

(** An identifier within the safe integer range survives being printed
    and parsed again. *)
Lemma parseInt_Number_toString eng z :
  (Z.abs z <= MAX_SAFE)%Z ->
  parseInt (Number_toString eng (Int z)) = Int z.
Proof.
  intros Hz. unfold Number_toString.
  apply Z.leb_le in Hz as Hb. rewrite Hb. unfold decimal.
  destruct (@decimal_pos_digits (N.to_nat (N.log2 (Z.to_N (Z.abs z))))
              (Z.to_N (Z.abs z)) [])
    as (ds & Hd & Hne & Hall & Hval).
  { rewrite Nat2N.inj_succ, N2Nat.id.
    destruct (N.eq_dec (Z.to_N (Z.abs z)) 0) as [->|Hpos]; [reflexivity|].
    apply N.log2_spec. lia. }
  rewrite Hd, app_nil_r.
  destruct (@parseInt_digits ds Hne Hall) as [Hpos Hneg].
  assert (Hv : digits_value 10 ds = Z.to_N (Z.abs z)).
  { unfold digits_value. rewrite Hval. lia. }
  destruct (z <? 0)%Z eqn:Hs.
  - apply Z.ltb_lt in Hs. change (js "-" ++ map (N.add 48) ds)
      with (45%N :: map (N.add 48) ds).
    rewrite Hneg, Hv. f_equal. lia.
  - apply Z.ltb_ge in Hs. cbn [app]. rewrite Hpos, Hv. f_equal. lia.
Qed.

(** ** The characters of an encoded query *)

Lemma hex_digit_unreserved d :
  (d < 16)%N -> isUnreserved (hex_digit d) = true.
Proof.
  intros H. unfold hex_digit, isUnreserved.
  destruct (d <? 10)%N eqn:E.
  - apply N.ltb_lt in E.
    replace ((48 <=? 48 + d) && (48 + d <=? 57))%N with true; [reflexivity|].
    symmetry. apply andb_true_iff. split; apply N.leb_le; lia.
  - apply N.ltb_ge in E.
    replace ((65 <=? 65 + (d - 10)) && (65 + (d - 10) <=? 90))%N with true;
      [now rewrite orb_true_r|].
    symmetry. apply andb_true_iff. split; apply N.leb_le; lia.
Qed.

Lemma percent_safe octet :
  (octet < 256)%N -> forallb isUriSafe (percent octet) = true.
Proof.
  intros H. unfold percent, isUriSafe. cbn [forallb].
  rewrite !hex_digit_unreserved.
  - now rewrite orb_true_r.
  - apply N.mod_lt. lia.
  - apply N.Div0.div_lt_upper_bound. lia.
Qed.

Lemma utf8_octets cp :
  (cp < 0x110000)%N -> Forall (fun o => (o < 256)%N) (utf8 cp).
Proof.
  intros H. unfold utf8.
  destruct (cp <? 128)%N eqn:E1; [apply N.ltb_lt in E1; repeat constructor; lia|].
  apply N.ltb_ge in E1.
  destruct (cp <? 2048)%N eqn:E2.
  { apply N.ltb_lt in E2. repeat constructor.
    - pose proof (N.Div0.div_lt_upper_bound cp 64 32). lia.
    - pose proof (N.mod_lt cp 64). lia. }
  apply N.ltb_ge in E2.
  destruct (cp <? 65536)%N eqn:E3.
  { apply N.ltb_lt in E3. repeat constructor.
    - pose proof (N.Div0.div_lt_upper_bound cp 4096 16). lia.
    - pose proof (N.mod_lt (cp / 64) 64). lia.
    - pose proof (N.mod_lt cp 64). lia. }
  apply N.ltb_ge in E3. repeat constructor.
  - pose proof (N.Div0.div_lt_upper_bound cp 262144 5). lia.
  - pose proof (N.mod_lt (cp / 4096) 64). lia.
  - pose proof (N.mod_lt (cp / 64) 64). lia.
  - pose proof (N.mod_lt cp 64). lia.
Qed.

Lemma percent_encode_safe cp :
  (cp < 0x110000)%N -> forallb isUriSafe (percent_encode cp) = true.
Proof.
  intros H. unfold percent_encode.
  induction (utf8_octets cp H) as [|o os Ho _ IH]; [reflexivity|].
  cbn [flat_map]. now rewrite forallb_app, percent_safe, IH.
Qed.

(** The result of [encodeURIComponent] holds unreserved characters and
    percent signs only. *)
Lemma encodeURIComponent_safe s :
  forallb is_code_unit s = true ->
  forall e, encodeURIComponent s = Some e -> forallb isUriSafe e = true.
Proof.
  remember (List.length s) as n eqn:Hn. revert s Hn.
  induction n as [n IH] using lt_wf_ind. intros [|c rest] Hn Hcu e He.
  - injection He as <-. reflexivity.
  - cbn [List.length] in Hn. cbn [forallb] in Hcu.
    apply andb_true_iff in Hcu as [Hc Hcu]. unfold is_code_unit in Hc.
    apply N.ltb_lt in Hc.
    change (encodeURIComponent (c :: rest)) with
      (if isUnreserved c then option_map (cons c) (encodeURIComponent rest)
       else if isTrailingSurrogate c then None
       else if isLeadingSurrogate c then
         match rest with
         | [] => None
         | c2 :: rest2 =>
             if isTrailingSurrogate c2 then
               option_map
                 (app (percent_encode
                         ((c - 0xD800) * 0x400 + (c2 - 0xDC00) + 0x10000)%N))
                 (encodeURIComponent rest2)
             else None
         end
       else option_map (app (percent_encode c)) (encodeURIComponent rest)) in He.
    destruct (isUnreserved c) eqn:Hu.
    + destruct (encodeURIComponent rest) as [e'|] eqn:He'; [|discriminate].
      injection He as <-. cbn [forallb]. unfold isUriSafe at 1. rewrite Hu.
      cbn [orb andb]. now apply (IH (List.length rest) ltac:(lia) rest eq_refl).
    + destruct (isTrailingSurrogate c); [discriminate|].
      destruct (isLeadingSurrogate c) eqn:Hl.
      * destruct rest as [|c2 rest2]; [discriminate|].
        destruct (isTrailingSurrogate c2) eqn:Ht; [|discriminate].
        destruct (encodeURIComponent rest2) as [e'|] eqn:He'; [|discriminate].
        injection He as <-. cbn [forallb] in Hcu.
        apply andb_true_iff in Hcu as [_ Hcu]. cbn [List.length] in Hn.
        rewrite forallb_app, percent_encode_safe.
        -- now apply (IH (List.length rest2) ltac:(lia) rest2 eq_refl).
        -- unfold isLeadingSurrogate, isTrailingSurrogate in *.
           apply andb_true_iff in Hl as [_ Hl], Ht as [_ Ht].
           apply N.leb_le in Hl, Ht. lia.
      * destruct (encodeURIComponent rest) as [e'|] eqn:He'; [|discriminate].
        injection He as <-.
        rewrite forallb_app, percent_encode_safe by lia.
        now apply (IH (List.length rest) ltac:(lia) rest eq_refl).
Qed.

(* ================================================================== *)
(** * Further properties of the inputs *)

(** X12: a create handler sends its request exactly when every required
    field holds at least one character that is not whitespace: a field
    of spaces, tabs or line breaks only counts as empty. *)
Theorem create_sends_iff_not_blank (env : Env) (past : list Event) :
  (forall doc,
     forallb isStrWhiteSpaceChar (Users.createName doc) = true ->
     Users.createUser env past doc
     = mkRun (Returned tt) doc [EAlert (js "Please enter a user name")]) /\
  (forall doc,
     forallb isStrWhiteSpaceChar (Users.createName doc) = false ->
     exists rest,
       emitted (Users.createUser env past doc)
       = EFetch (Users.request (engine env) Create doc)
           (fetch_answer env past (Users.request (engine env) Create doc))
           :: rest) /\
  (forall doc,
     forallb isStrWhiteSpaceChar (Books.createTitle doc)
       || forallb isStrWhiteSpaceChar (Books.createAuthor doc) = true ->
     Books.createBook env past doc
     = mkRun (Returned tt) doc
         [EAlert (js "Please enter both a book title and an author name")]) /\
  (forall doc,
     forallb isStrWhiteSpaceChar (Books.createTitle doc)
       || forallb isStrWhiteSpaceChar (Books.createAuthor doc) = false ->
     exists rest,
       emitted (Books.createBook env past doc)
       = EFetch (Books.request (engine env) Create doc)
           (fetch_answer env past (Books.request (engine env) Create doc))
           :: rest).
Proof.
  assert (Hblank : forall s,
    nonempty (trim s) = negb (forallb isStrWhiteSpaceChar s)).
  { intros s. destruct (forallb isStrWhiteSpaceChar s) eqn:E.
    - apply trim_nil_iff in E. now rewrite E.
    - destruct (trim s) eqn:T; [|reflexivity].
      apply trim_nil_iff in T. congruence. }
  split; [|split; [|split]]; intros doc H.
  - pose proof (users_mutate_run Create env past doc) as R.
    cbv zeta in R. cbn [Users.mutate] in R.
    apply R. cbn [Users.valid]. now rewrite Hblank, H.
  - pose proof (users_mutate_run Create env past doc) as R.
    cbv zeta in R. cbn [Users.mutate] in R.
    destruct R as (_ & _ & _ & R & _).
    destruct R as [rest R]; [|reflexivity|].
    { cbn [Users.valid]. now rewrite Hblank, H. }
    exists rest. rewrite R. unfold Users.answer, Users.prologue.
    cbn [Users.question app]. now rewrite app_nil_r.
  - pose proof (books_mutate_run Create env past doc) as R.
    cbv zeta in R. cbn [Books.mutate] in R.
    apply R. cbn [Books.valid]. rewrite !Hblank, <- negb_orb. now rewrite H.
  - pose proof (books_mutate_run Create env past doc) as R.
    cbv zeta in R. cbn [Books.mutate] in R.
    destruct R as (_ & _ & _ & R & _).
    destruct R as [rest R]; [|reflexivity|].
    { cbn [Books.valid]. rewrite !Hblank, <- negb_orb. now rewrite H. }
    exists rest. rewrite R. unfold Books.answer, Books.prologue.
    cbn [Books.question app]. now rewrite app_nil_r.
Qed.

Lemma create_sends_iff_not_blank_witness :
  Users.createUser (scripted [] true) []
    (Users.set_createName [9%N; 32%N; 10%N; 0xA0%N] users_page)
  = mkRun (Returned tt)
      (Users.set_createName [9%N; 32%N; 10%N; 0xA0%N] users_page)
      [EAlert (js "Please enter a user name")] /\
  (exists rest,
     emitted (Users.createUser (scripted [] true) [] users_page)
     = EFetch (Users.request sample_engine Create users_page) offline :: rest) /\
  Books.createBook (scripted [] true) []
    (Books.set_createTitle (js "  ") books_page)
  = mkRun (Returned tt) (Books.set_createTitle (js "  ") books_page)
      [EAlert (js "Please enter both a book title and an author name")] /\
  (exists rest,
     emitted (Books.createBook (scripted [] true) [] books_page)
     = EFetch (Books.request sample_engine Create books_page) offline :: rest).
Proof.
  pose proof (create_sends_iff_not_blank (scripted [] true) [])
    as (U1 & U2 & B1 & B2).
  split; [|split; [|split]].
  - apply U1. reflexivity.
  - apply (U2 users_page). reflexivity.
  - apply B1. reflexivity.
  - apply (B2 books_page). reflexivity.
Defined.

(** X13: what a create handler submits is the input with the whitespace
    at its two ends removed and nothing else changed: the input is some
    whitespace, then the submitted text, then some whitespace, and the
    submitted text neither starts nor ends with whitespace. *)
Theorem submitted_field_is_the_trimmed_input (env : Env) (past : list Event) :
  (forall doc,
     trim (Users.createName doc) <> [] ->
     exists name l r rest,
       Users.createName doc = l ++ name ++ r /\
       forallb isStrWhiteSpaceChar l = true /\
       forallb isStrWhiteSpaceChar r = true /\
       (forall c t, name = c :: t -> isStrWhiteSpaceChar c = false) /\
       (forall t c, name = t ++ [c] -> isStrWhiteSpaceChar c = false) /\
       emitted (Users.createUser env past doc)
       = EFetch {| method := POST; url := Users.API_URL;
                   headers := [(js "Content-Type", js "application/json")];
                   body := Some (JObj [(js "name", JStr name)]) |}
           (fetch_answer env past
              {| method := POST; url := Users.API_URL;
                 headers := [(js "Content-Type", js "application/json")];
                 body := Some (JObj [(js "name", JStr name)]) |})
           :: rest) /\
  (forall doc,
     trim (Books.createTitle doc) <> [] ->
     trim (Books.createAuthor doc) <> [] ->
     exists title author l r l' r' rest,
       Books.createTitle doc = l ++ title ++ r /\
       Books.createAuthor doc = l' ++ author ++ r' /\
       forallb isStrWhiteSpaceChar (l ++ r ++ l' ++ r') = true /\
       (forall c t, title = c :: t \/ author = c :: t ->
                    isStrWhiteSpaceChar c = false) /\
       (forall t c, title = t ++ [c] \/ author = t ++ [c] ->
                    isStrWhiteSpaceChar c = false) /\
       emitted (Books.createBook env past doc)
       = EFetch {| method := POST; url := Books.API_URL;
                   headers := [(js "Content-Type", js "application/json")];
                   body := Some (JObj [(js "title", JStr title);
                                       (js "author", JStr author)]) |}
           (fetch_answer env past
              {| method := POST; url := Books.API_URL;
                 headers := [(js "Content-Type", js "application/json")];
                 body := Some (JObj [(js "title", JStr title);
                                     (js "author", JStr author)]) |})
           :: rest).
Proof.
  split.
  - intros doc Hname.
    destruct (trim_split (Users.createName doc)) as (l & r & Hs & Hl & Hr).
    pose proof (users_mutate_run Create env past doc) as R.
    cbv zeta in R. cbn [Users.mutate] in R.
    destruct R as (_ & _ & _ & R & _).
    destruct R as [rest R]; [|reflexivity|].
    { cbn [Users.valid]. now apply nonempty_true. }
    exists (trim (Users.createName doc)), l, r, rest.
    split; [exact Hs|]. split; [exact Hl|]. split; [exact Hr|].
    split; [intros c t; apply trim_head|].
    split; [intros t c; apply trim_last|].
    rewrite R. unfold Users.answer, Users.prologue.
    cbn [Users.question app]. now rewrite app_nil_r.
  - intros doc Htitle Hauthor.
    destruct (trim_split (Books.createTitle doc)) as (l & r & Hs & Hl & Hr).
    destruct (trim_split (Books.createAuthor doc))
      as (l' & r' & Hs' & Hl' & Hr').
    pose proof (books_mutate_run Create env past doc) as R.
    cbv zeta in R. cbn [Books.mutate] in R.
    destruct R as (_ & _ & _ & R & _).
    destruct R as [rest R]; [|reflexivity|].
    { cbn [Books.valid]. apply andb_true_iff. split; now apply nonempty_true. }
    exists (trim (Books.createTitle doc)), (trim (Books.createAuthor doc)),
      l, r, l', r', rest.
    split; [exact Hs|]. split; [exact Hs'|].
    split; [now rewrite !forallb_app, Hl, Hr, Hl', Hr'|].
    split; [intros c t [H|H]; eapply trim_head; exact H|].
    split; [intros t c [H|H]; eapply trim_last; exact H|].
    rewrite R. unfold Books.answer, Books.prologue.
    cbn [Books.question app]. now rewrite app_nil_r.
Qed.

Lemma submitted_field_is_the_trimmed_input_witness :
  exists name l r rest,
    Users.createName users_page = l ++ name ++ r /\
    forallb isStrWhiteSpaceChar l = true /\
    forallb isStrWhiteSpaceChar r = true /\
    (forall c t, name = c :: t -> isStrWhiteSpaceChar c = false) /\
    (forall t c, name = t ++ [c] -> isStrWhiteSpaceChar c = false) /\
    emitted (Users.createUser (scripted [] true) [] users_page)
    = EFetch {| method := POST; url := Users.API_URL;
                headers := [(js "Content-Type", js "application/json")];
                body := Some (JObj [(js "name", JStr name)]) |}
        (fetch_answer (scripted [] true) []
           {| method := POST; url := Users.API_URL;
              headers := [(js "Content-Type", js "application/json")];
              body := Some (JObj [(js "name", JStr name)]) |})
        :: rest.
Proof.
  apply (proj1 (submitted_field_is_the_trimmed_input (scripted [] true) [])
           users_page).
  vm_compute. discriminate.
Defined.

(** X14: an identifier typed the way the page prints it (a decimal
    integer other than zero, within the safe integer range, with a minus
    sign if negative) passes validation and reaches the URL and the
    confirmation unchanged: parsing and printing it again gives back
    the typed text.  Negative identifiers are accepted like positive
    ones. *)
Theorem typed_id_reaches_the_url (env : Env) (past : list Event) (id : Z) :
  id <> 0%Z -> (Z.abs id <= MAX_SAFE)%Z ->
  (forall doc,
     Users.updateId doc = Number_toString (engine env) (Int id) ->
     trim (Users.updateName doc) <> [] ->
     exists rest,
       requests (emitted (Users.updateUser env past doc))
       = {| method := PUT;
            url := Users.API_URL ++ js "/" ++ Users.updateId doc;
            headers := [(js "Content-Type", js "application/json")];
            body := Some (JObj [(js "name", JStr (trim (Users.updateName doc)))]) |}
           :: rest) /\
  (forall doc,
     Users.deleteId doc = Number_toString (engine env) (Int id) ->
     confirm_answer env past
       (js "Are you sure you want to delete user ID "
          ++ Users.deleteId doc ++ js "?") = true ->
     exists rest,
       requests (emitted (Users.deleteUser env past doc))
       = {| method := DELETE;
            url := Users.API_URL ++ js "/" ++ Users.deleteId doc;
            headers := []; body := None |} :: rest) /\
  (forall doc,
     Books.updateId doc = Number_toString (engine env) (Int id) ->
     trim (Books.updateTitle doc) <> [] ->
     trim (Books.updateAuthor doc) <> [] ->
     exists rest,
       requests (emitted (Books.updateBook env past doc))
       = {| method := PUT;
            url := Books.API_URL ++ js "/" ++ Books.updateId doc;
            headers := [(js "Content-Type", js "application/json")];
            body := Some (JObj [(js "title", JStr (trim (Books.updateTitle doc)));
                                (js "author", JStr (trim (Books.updateAuthor doc)))]) |}
           :: rest).
Proof.
  intros Hnz Hsafe.
  assert (Htruthy : Number_truthy (Int id) = true).
  { apply Number_truthy_spec. now exists id. }
  split; [|split].
  - intros doc Hid Hname.
    assert (Hparse : parseInt (Users.updateId doc) = Int id).
    { rewrite Hid. now apply parseInt_Number_toString. }
    change (Users.updateUser env past doc)
      with (Users.mutate Update env past doc).
    rewrite users_mutate_requests.
    assert (Hv : Users.valid Update doc = true).
    { cbn [Users.valid]. rewrite Hparse, Htruthy. now apply nonempty_true. }
    rewrite Hv. unfold Users.confirmed. cbn [Users.question andb].
    unfold Users.request. rewrite Hparse, <- Hid.
    destruct (Users.succeeds env past Update doc); eexists; reflexivity.
  - intros doc Hid Hyes.
    assert (Hparse : parseInt (Users.deleteId doc) = Int id).
    { rewrite Hid. now apply parseInt_Number_toString. }
    change (Users.deleteUser env past doc)
      with (Users.mutate Delete env past doc).
    rewrite users_mutate_requests.
    assert (Hv : Users.valid Delete doc = true).
    { cbn [Users.valid]. now rewrite Hparse. }
    rewrite Hv. unfold Users.confirmed. cbn [Users.question andb].
    unfold Users.request. rewrite Hparse, <- Hid, Hyes.
    destruct (Users.succeeds env past Delete doc); eexists; reflexivity.
  - intros doc Hid Htitle Hauthor.
    assert (Hparse : parseInt (Books.updateId doc) = Int id).
    { rewrite Hid. now apply parseInt_Number_toString. }
    change (Books.updateBook env past doc)
      with (Books.mutate Update env past doc).
    rewrite books_mutate_requests.
    assert (Hv : Books.valid Update doc = true).
    { cbn [Books.valid]. rewrite Hparse, Htruthy.
      apply nonempty_true in Htitle, Hauthor. now rewrite Htitle, Hauthor. }
    rewrite Hv. unfold Books.confirmed. cbn [Books.question andb].
    unfold Books.request. rewrite Hparse, <- Hid.
    destruct (Books.succeeds env past Update doc); eexists; reflexivity.
Qed.

Lemma typed_id_reaches_the_url_witness :
  exists rest,
    requests (emitted (Users.deleteUser (scripted [] true) []
                         (Users.set_deleteId (js "-42") users_page)))
    = {| method := DELETE; url := js "/api/users/-42";
         headers := []; body := None |} :: rest.
Proof.
  apply (proj1 (proj2 (typed_id_reaches_the_url (scripted [] true) []
                         (-42)%Z
                         ltac:(discriminate) ltac:(vm_compute; discriminate)))
           (Users.set_deleteId (js "-42") users_page));
    reflexivity.
Defined.

(** X15: whatever is typed in the search box, the URL a search requests
    is the collection endpoint followed by [?search=] and a parameter
    made of unreserved characters and percent signs only: no space,
    [&], [=], [#], [?] or [/] of the query reaches the URL unescaped. *)
Theorem search_url_is_escaped (env : Env) (past : list Event) :
  forall doc req,
    forallb is_code_unit (Books.searchInput doc) = true ->
    In req (requests (emitted (Books.searchBooks env past doc))) ->
    exists encoded,
      url req = Books.API_URL ++ js "?search=" ++ encoded /\
      encodeURIComponent (trim (Books.searchInput doc)) = Some encoded /\
      forallb isUriSafe encoded = true.
Proof.
  intros doc req Hcu Hin. rewrite books_search_requests in Hin.
  apply (trim_forallb is_code_unit) in Hcu.
  destruct (trim (Books.searchInput doc)) as [|c q]; [destruct Hin|].
  destruct (encodeURIComponent (c :: q)) as [encoded|] eqn:Henc;
    [|destruct Hin].
  destruct Hin as [<-|[]]. exists encoded.
  split; [reflexivity|]. split; [reflexivity|].
  now apply (encodeURIComponent_safe (c :: q)).
Qed.

Lemma search_url_is_escaped_witness :
  exists encoded,
    url (Books.search_request (js "a%20%26b%3D1%23%3F%2F"))
    = Books.API_URL ++ js "?search=" ++ encoded /\
    encodeURIComponent
      (trim (Books.searchInput
               (Books.set_searchInput (js " a &b=1#?/ ") books_page)))
    = Some encoded /\
    forallb isUriSafe encoded = true.
Proof.
  apply (search_url_is_escaped (scripted [] true) []
           (Books.set_searchInput (js " a &b=1#?/ ") books_page)).
  - reflexivity.
  - left. reflexivity.
Defined.

(** X16: a user object without a [name] property is rendered all the
    same: its row shows the identifier and, in place of the name, the
    text [undefined]. *)
Theorem missing_name_renders_as_undefined (env : Env) (past : list Event) :
  forall doc users ids,
    map users_nameless users = map Some ids ->
    Users.displayUsers (JArr users) env past doc
    = mkRun (Returned tt)
        (Users.set_userTableBody
           (map (fun id => Users.user_row (engine env) (id, js "undefined")) ids)
           doc) [].
Proof.
  intros doc users ids Hrec. unfold Users.displayUsers, forEach.
  match goal with |- context [each users ?f] => set (cb := f) end.
  assert (Hloop : forall l zs, map users_nameless l = map Some zs ->
    forall past doc,
      each l cb env past doc
      = mkRun (Returned tt)
          (fold_left (fun d row => Users.appendChild row d)
             (map (fun id => Users.user_row (engine env) (id, js "undefined"))
                zs) doc) []).
  { clear. induction l as [|j l IH]; intros [|z zs] Hl past doc;
      try discriminate; [reflexivity|].
    cbn in Hl. injection Hl as Hj Hl. cbn [each map fold_left].
    assert (Hcb : forall past doc,
      cb j env past doc
      = mkRun (Returned tt)
          (Users.appendChild
             (Users.user_row (engine env) (z, js "undefined")) doc) []).
    { intros past' doc'. destruct j; try discriminate.
      unfold users_nameless in Hj.
      destruct (own_property (js "id") members) as [[]|] eqn:Hid;
        try discriminate.
      destruct (own_property (js "name") members) eqn:Hname;
        try discriminate.
      injection Hj as <-. subst cb. unfold_monad. unfold Get.
      rewrite Hid, Hname. reflexivity. }
    unfold bind. rewrite Hcb. cbn. now rewrite (IH zs Hl). }
  unfold bind at 1, write at 1. cbn -[each].
  rewrite (Hloop _ _ Hrec). cbn. now rewrite users_fold_appendChild.
Qed.

Lemma missing_name_renders_as_undefined_witness :
  Users.displayUsers
    (JArr [JObj [(js "id", JNum 7)];
           JObj [(js "email", JStr (js "x@y")); (js "id", JNum 8)]])
    (scripted [] true) [] users_page
  = mkRun (Returned tt)
      (Users.set_userTableBody
         (map (fun id => Users.user_row sample_engine (id, js "undefined"))
            [7%Z; 8%Z]) users_page) [].
Proof.
  apply (missing_name_renders_as_undefined (scripted [] true) [] users_page
           [JObj [(js "id", JNum 7)];
            JObj [(js "email", JStr (js "x@y")); (js "id", JNum 8)]]
           [7%Z; 8%Z]).
  reflexivity.
Defined.

(* ================================================================== *)
(** * The confirmation of a success *)








(** X18: rendering only ever changes the table: whatever value is
    rendered, an array or not, the renderer sends no request, shows no
    alert, logs nothing and leaves every input as it was. *)
Theorem renderer_touches_only_the_table
  (env : Env) (past : list Event) (v : JSON) :
  (forall doc,
     emitted (Users.displayUsers v env past doc) = [] /\
     Users.same_inputs (document (Users.displayUsers v env past doc)) doc) /\
  (forall doc,
     emitted (Books.displayBooks v env past doc) = [] /\
     Books.same_inputs (document (Books.displayBooks v env past doc)) doc).
Proof.
  split; intros doc.
  - destruct (users_display_uniform v env) as (rows & o & H). rewrite H.
    split; [reflexivity|apply users_same_inputs_set].
  - destruct (books_display_uniform v env) as (rows & o & H). rewrite H.
    split; [reflexivity|apply books_same_inputs_set].
Qed.
